(** * Research pipeline: task queue, task store, stage sequencer, fetch and
      analysis stages.

    A shallow embedding of [task_queue.py], [state.py], [policy.py],
    [tools.py] and the orchestrator of [engine.py].  Redis is an explicit
    store passed from command to command; a Python call that may raise
    returns a [res]. *)

From Stdlib Require Import Ascii String ZArith QArith Lia Sorting.Sorted.
From stdpp Require Import gmap strings list fin_maps sorting.

Open Scope string_scope.
Open Scope list_scope.

(** ** Python values that cross the Redis boundary *)

Set Warnings "-register-all".

(** A JSON document, as [json.loads] builds it and [json.dumps] accepts it.
    A Python dict keeps insertion order, hence the association list. *)
Inductive json : Type :=
| JNull
| JBool (b : bool)
| JInt (z : Z)
| JFloat (q : Q)
| JStr (s : string)
| JArr (l : list json)
| JObj (fields : list (string * json)).

(** A Redis string value.  A text that is a JSON document, as [json.dumps]
    writes it, is kept as the document it encodes, so that [json.loads]
    inverts it; [Raw] is for the other texts: the status names, timestamps
    and exception messages the program writes and never decodes. *)
Inductive text : Type :=
| Raw (s : string)
| Dumps (j : json).

(** An exception, of class [Exception] or below (what [except Exception]
    catches): its class and the message [str(e)] shows. *)
Record exc : Type := Exc { exc_class : string; exc_msg : string }.

Definition py_str (e : exc) : string := exc_msg e.

Inductive res (A : Type) : Type :=
| Ok (a : A)
| Raise (e : exc).
Arguments Ok {A} a.
Arguments Raise {A} e.

#[global] Instance res_ret : MRet res := fun A a => Ok a.
#[global] Instance res_bind : MBind res := fun A B f m =>
  match m with
  | Ok a => f a
  | Raise e => Raise e
  end.

Definition KeyError (k : string) : exc := Exc "KeyError" ("'" ++ k ++ "'").
Definition TypeError (m : string) : exc := Exc "TypeError" m.
Definition RuntimeError (m : string) : exc := Exc "RuntimeError" m.
Definition JSONDecodeError : exc := Exc "JSONDecodeError" "Expecting value".

(** [json.loads] on a Redis string.  A text that decodes is a [Dumps]; a
    [Raw] one stands for a text that does not. *)
Definition json_loads (t : text) : res json :=
  match t with
  | Dumps j => Ok j
  | Raw _ => Raise JSONDecodeError
  end.

Fixpoint assoc (k : string) (fields : list (string * json)) : option json :=
  match fields with
  | [] => None
  | (k', v) :: rest => if decide (k = k') then Some v else assoc k rest
  end.

(** [d[k]] on a loaded document. *)
Definition subscript (d : json) (k : string) : res json :=
  match d with
  | JObj fields =>
      match assoc k fields with
      | Some v => Ok v
      | None => Raise (KeyError k)
      end
  | _ => Raise (TypeError "object is not subscriptable")
  end.

(** ** Redis *)

Module Redis.

Inductive rval : Type :=
| RString (t : text)
| RList (l : list text)
| RHash (h : gmap string text).

Abbreviation store := (gmap string rval).

Definition WRONGTYPE : exc :=
  Exc "ResponseError"
      "WRONGTYPE Operation against a key holding the wrong kind of value".

(** LPUSH: the new element becomes the head of the list. *)
Definition lpush (key : string) (v : text) (s : store) : res store :=
  match s !! key with
  | None => Ok (<[key := RList [v]]> s)
  | Some (RList l) => Ok (<[key := RList (v :: l)]> s)
  | Some _ => Raise WRONGTYPE
  end.

(** BLPOP with a timeout: pops the head; [None] when the timeout passes
    with the list still empty.  An emptied list key is removed. *)
Definition blpop (key : string) (s : store)
  : res (store * option (string * text)) :=
  match s !! key with
  | None => Ok (s, None)
  | Some (RList []) => Ok (s, None)
  | Some (RList [v]) => Ok (delete key s, Some (key, v))
  | Some (RList (v :: l)) => Ok (<[key := RList l]> s, Some (key, v))
  | Some _ => Raise WRONGTYPE
  end.

(** HSET with a mapping: the given fields are written, the others kept. *)
Definition hset (key : string) (mapping : list (string * text)) (s : store)
  : res store :=
  match s !! key with
  | None => Ok (<[key := RHash (list_to_map mapping)]> s)
  | Some (RHash h) => Ok (<[key := RHash (list_to_map mapping ∪ h)]> s)
  | Some _ => Raise WRONGTYPE
  end.

Definition hgetall (key : string) (s : store) : res (gmap string text) :=
  match s !! key with
  | None => Ok ∅
  | Some (RHash h) => Ok h
  | Some _ => Raise WRONGTYPE
  end.

(** GET reads a string value and nothing else. *)
Definition get (key : string) (s : store) : res (option text) :=
  match s !! key with
  | None => Ok None
  | Some (RString t) => Ok (Some t)
  | Some _ => Raise WRONGTYPE
  end.

(** SET overwrites whatever the key held. *)
Definition set (key : string) (t : text) (s : store) : store :=
  <[key := RString t]> s.

(** The field of a hash, for observing a task's entry. *)
Definition hfield (key field : string) (s : store) : option text :=
  match s !! key with
  | Some (RHash h) => h !! field
  | _ => None
  end.

End Redis.

(** ** task_queue.py *)

Module MessageQueue.
Import Redis.

(** [TaskStatus.<NAME>.value] *)
Inductive TaskStatus : Type :=
| PENDING | IN_PROGRESS | COMPLETED | FAILED | CANCELLED.

Definition status_value (st : TaskStatus) : string :=
  match st with
  | PENDING => "pending"
  | IN_PROGRESS => "in_progress"
  | COMPLETED => "completed"
  | FAILED => "failed"
  | CANCELLED => "cancelled"
  end.

Definition queue_key : string := "task_queue".
Definition task_key (task_id : string) : string := "task:" ++ task_id.

(** What one [enqueue_task] call reads from its caller and from its
    environment: the two arguments, the [uuid4] drawn and the clock. *)
Record request : Type := Request {
  req_type : string;
  req_payload : json;
  req_uuid : string;
  req_now : string
}.

Definition task_data (r : request) : json :=
  JObj [("task_id", JStr (req_uuid r));
        ("task_type", JStr (req_type r));
        ("payload", req_payload r);
        ("created_at", JStr (req_now r))].

(** The first write of [enqueue_task]. *)
Definition enqueue_push (r : request) (s : store) : res store :=
  lpush queue_key (Dumps (task_data r)) s.

(** The second write of [enqueue_task]. *)
Definition enqueue_init (r : request) (s : store) : res store :=
  hset (task_key (req_uuid r))
       [("status", Raw (status_value PENDING));
        ("data", Dumps (task_data r))] s.

Definition enqueue_task (r : request) (s : store) : res (store * string) :=
  s1 ← enqueue_push r s;
  s2 ← enqueue_init r s1;
  mret (s2, req_uuid r).

(** A run of [enqueue_task] calls, one after the other. *)
Fixpoint enqueue_all (rs : list request) (s : store) : res store :=
  match rs with
  | [] => Ok s
  | r :: rest =>
      match enqueue_task r s with
      | Ok (s', _) => enqueue_all rest s'
      | Raise e => Raise e
      end
  end.

(** The descriptors the consumer loop receives in [n] consecutive
    iterations: the pop and the [json.loads] that open each iteration of
    [process_queue].  An iteration that raises is followed by the next. *)
Fixpoint deliveries (n : nat) (s : store) : list json :=
  match n with
  | O => []
  | S n' =>
      match blpop queue_key s with
      | Ok (s', Some (_, task_json)) =>
          match json_loads task_json with
          | Ok task => task :: deliveries n' s'
          | Raise _ => deliveries n' s'
          end
      | Ok (s', None) => deliveries n' s'
      | Raise _ => deliveries n' s
      end
  end.

(** A registered handler, by what the loop sees of it: the payload in, a
    result or an exception out. *)
Definition handler : Type := json -> res json.

(** [handlers.get(task["task_type"])] on a dict keyed by strings. *)
Definition handlers_get (handlers : gmap string handler) (ty : json)
  : res (option handler) :=
  match ty with
  | JStr t => Ok (handlers !! t)
  | JArr _ | JObj _ => Raise (TypeError "unhashable type")
  | _ => Ok None
  end.

(** The [{task_id}] of the f-string.  A string id, which is what
    [enqueue_task] writes, renders as itself; how Python prints the other
    values (numbers, lists, dicts) is not part of this development, and
    [None] marks a descriptor with such an id. *)
Definition format_id (task_id : json) : option string :=
  match task_id with
  | JStr s => Some s
  | _ => None
  end.

Definition in_progress_fields : list (string * text) :=
  [("status", Raw (status_value IN_PROGRESS))].

Definition completed_fields (result : json) (now : string)
  : list (string * text) :=
  [("status", Raw (status_value COMPLETED));
   ("result", Dumps result);
   ("completed_at", Raw now)].

Definition failed_fields (e : exc) (now : string) : list (string * text) :=
  [("status", Raw (status_value FAILED));
   ("error", Raw (py_str e));
   ("failed_at", Raw now)].

(** The inner [try]: the handler call and the write of its result; the
    [except] writes the failure. *)
Definition run_handler (h : handler) (task : json) (key now : string)
    (s : store) : res store :=
  let attempt :=
    payload ← subscript task "payload";
    result ← h payload;
    hset key (completed_fields result now) s in
  match attempt with
  | Ok s' => Ok s'
  | Raise e => hset key (failed_fields e now) s
  end.

(** What an iteration does with the descriptor it popped. *)
Definition dispatch (handlers : gmap string handler) (now : string)
    (task_json : text) (s : store) : res (option store) :=
  task ← json_loads task_json;
  task_id ← subscript task "task_id";
  ty ← subscript task "task_type";
  h ← handlers_get handlers ty;
  match h with
  | None => mret (Some s)
  | Some h =>
      match format_id task_id with
      | None => mret None
      | Some id =>
          match hset (task_key id) in_progress_fields s with
          | Raise e => Raise e
          | Ok s1 =>
              match run_handler h task (task_key id) now s1 with
              | Ok s2 => mret (Some s2)
              | Raise _ => mret (Some s1)
              end
          end
      end
  end.

(** One iteration of the [while True] of [process_queue]; [now] is the
    clock read when the handler is done.  The outer [except] keeps the
    loop alive with the store as the failed step left it.  [None] only for
    a descriptor with a registered handler whose id is not a string. *)
Definition process_one (handlers : gmap string handler) (now : string)
    (s : store) : option store :=
  match blpop queue_key s with
  | Raise _ => Some s
  | Ok (s1, None) => Some s1
  | Ok (s1, Some (_, task_json)) =>
      match dispatch handlers now task_json s1 with
      | Ok r => r
      | Raise _ => Some s1
      end
  end.

Definition get_task_status (task_id : string) (s : store)
  : res (option (gmap string text)) :=
  task_data ← hgetall (task_key task_id) s;
  if decide (task_data = ∅) then mret None else mret (Some task_data).

End MessageQueue.

(** ** state.py *)

Module StateManager.
Import Redis.

Inductive TaskStatus : Type := PENDING | IN_PROGRESS | COMPLETED | FAILED.

Definition status_value (st : TaskStatus) : string :=
  match st with
  | PENDING => "pending"
  | IN_PROGRESS => "in_progress"
  | COMPLETED => "completed"
  | FAILED => "failed"
  end.

(** [TaskStatus(v)] *)
Definition status_of (v : json) : res TaskStatus :=
  match v with
  | JStr s =>
      if decide (s = "pending") then Ok PENDING
      else if decide (s = "in_progress") then Ok IN_PROGRESS
      else if decide (s = "completed") then Ok COMPLETED
      else if decide (s = "failed") then Ok FAILED
      else Raise (Exc "ValueError" (s ++ " is not a valid TaskStatus"))
  | _ => Raise (Exc "ValueError" "not a valid TaskStatus")
  end.

(** A [datetime], held as its ISO-8601 text. *)
Record datetime : Type := Datetime { isoformat : string }.

(** [datetime.fromisoformat]; the layout of the text is not inspected. *)
Definition fromisoformat (v : json) : res datetime :=
  match v with
  | JStr s => Ok (Datetime s)
  | _ => Raise (TypeError "fromisoformat: argument must be str")
  end.

Record TaskState : Type := {
  task_id : json;
  status : TaskStatus;
  created_at : datetime;
  updated_at : datetime;
  data : json;
  error : json
}.

Definition task_key (task_id : string) : string := "task:" ++ task_id.

Definition set_state (id : string) (state : TaskState) (s : store) : store :=
  let state_dict :=
    JObj [("task_id", JStr id);
          ("status", JStr (status_value (status state)));
          ("created_at", JStr (isoformat (created_at state)));
          ("updated_at", JStr (isoformat (updated_at state)));
          ("data", data state);
          ("error", error state)] in
  set (task_key id) (Dumps state_dict) s.

(** [if not state_data]: [None] and the empty string are falsy. *)
Definition falsy (state_data : option text) : bool :=
  match state_data with
  | None => true
  | Some (Raw s) => bool_decide (s = "")
  | Some (Dumps _) => false
  end.

Definition get_state (id : string) (s : store) : res (option TaskState) :=
  state_data ← get (task_key id) s;
  if falsy state_data then mret None
  else
    match state_data with
    | None => mret None
    | Some t =>
        state_dict ← json_loads t;
        tid ← subscript state_dict "task_id";
        st ← subscript state_dict "status";
        st ← status_of st;
        ca ← subscript state_dict "created_at";
        ca ← fromisoformat ca;
        ua ← subscript state_dict "updated_at";
        ua ← fromisoformat ua;
        d ← subscript state_dict "data";
        e ← subscript state_dict "error";
        mret (Some {| task_id := tid; status := st; created_at := ca;
                      updated_at := ua; data := d; error := e |})
    end.

End StateManager.

(** ** policy.py *)

Module ResearchPolicy.

Record Action : Type := {
  name : string;
  priority : Z
}.

(** The workflow flags: the dict [{"searched": .., "analyzed": ..}]. *)
Abbreviation flags := (gmap string bool).

(** [not state.get(k)]: a missing flag counts as false. *)
Definition flag_unset (state : flags) (k : string) : bool :=
  match state !! k with
  | Some true => false
  | _ => true
  end.

Definition select_action (state : flags) : Action :=
  if flag_unset state "searched" then {| name := "search"; priority := 1 |}
  else if flag_unset state "analyzed" then {| name := "analyze"; priority := 2 |}
  else {| name := "summarize"; priority := 3 |}.

End ResearchPolicy.

(** ** tools.py: AnalyzeTool *)

Module AnalyzeTool.

Record analysis : Type := {
  text_of : json;
  relevance : Q;
  summary : option string
}.

(** [content.split('.')] *)
Fixpoint split_dot (s : string) : list string :=
  match s with
  | EmptyString => [EmptyString]
  | String c rest =>
      if decide (c = "."%char) then EmptyString :: split_dot rest
      else
        match split_dot rest with
        | h :: t => String c h :: t
        | [] => [String c EmptyString]
        end
  end.

(** [min(len(content) / 1000, 1.0)], and [0.0] for the empty string.  The
    quotient is kept exact: between two lengths the float division keeps
    the order and the equalities of the rationals. *)
Definition _calculate_relevance (content : string) : Q :=
  if decide (content = "") then 0
  else
    let n := String.length content in
    if (1000 <=? n)%nat then 1 else Z.of_nat n # 1000.

Definition _extract_summary (content : string) : string :=
  String.concat ". " (take 3 (split_dot content)) ++ ".".

(** [run]: the three entries for a string; every other content raises in
    the [try] ([content[:500]] or [content.split]) and gets the degraded
    entries of the [except]. *)
Definition run (content : json) : analysis :=
  match content with
  | JStr c =>
      {| text_of := JStr (substring 0 500 c);
         relevance := _calculate_relevance c;
         summary := Some (_extract_summary c) |}
  | _ => {| text_of := content; relevance := 0; summary := None |}
  end.

Definition to_json (a : analysis) : json :=
  JObj [("text", text_of a);
        ("relevance", JFloat (relevance a));
        ("summary", match summary a with Some s => JStr s | None => JNull end)].

End AnalyzeTool.

(** ** engine.py: the orchestrator *)

Module ResearchAgent.

Inductive SourceType : Type := WEB | WIKI | ACADEMIC | NEWS | SCHOLARLY.

(** The validated query the handler builds from its payload. *)
Record ResearchQuery : Type := {
  query : string;
  sources : list SourceType;
  max_results : Z
}.

(** The bounds [ResearchQuery] enforces when it is built. *)
Definition valid_query (q : ResearchQuery) : Prop :=
  (3 <= String.length (query q) <= 500)%nat /\
  sources q <> [] /\
  (1 <= max_results q <= 50)%Z.

(** An entry of [analyzed_results]. *)
Record scored : Type := {
  source : json;
  content : json;
  metadata : json;
  relevance_score : Q
}.

Definition scored_to_json (x : scored) : json :=
  JObj [("source", source x);
        ("content", content x);
        ("metadata", metadata x);
        ("relevance_score", JFloat (relevance_score x))].

(** [sorted(xs, key=..., reverse=True)]: descending, and stable. *)
Section Sorted.
Context {A : Type} (key : A -> Q).

Fixpoint insert_desc (x : A) (l : list A) : list A :=
  match l with
  | [] => [x]
  | y :: l' =>
      if Qle_bool (key y) (key x) then x :: y :: l'
      else y :: insert_desc x l'
  end.

Definition py_sorted_desc (l : list A) : list A := foldr insert_desc [] l.
End Sorted.

(** [xs[:m]] *)
Definition slice_to {A : Type} (m : Z) (l : list A) : list A :=
  if (0 <=? m)%Z then take (Z.to_nat m) l
  else take (length l - Z.to_nat (- m)) l.

(** [d[k] = v] on a dict: the key keeps its place, a new key goes last. *)
Fixpoint dict_set (k : string) (v : json) (fields : list (string * json))
  : list (string * json) :=
  match fields with
  | [] => [(k, v)]
  | (k', v') :: rest =>
      if decide (k = k') then (k, v) :: rest
      else (k', v') :: dict_set k v rest
  end.

(** [{**metadata, "analysis": analysis}] *)
Definition merge_analysis (md : json) (a : AnalyzeTool.analysis) : res json :=
  match md with
  | JObj fields => Ok (JObj (dict_set "analysis" (AnalyzeTool.to_json a) fields))
  | _ => Raise (TypeError "argument after ** must be a mapping")
  end.

Definition analyzed_entry (result : json) (a : AnalyzeTool.analysis)
  : res scored :=
  src ← subscript result "source";
  md ← subscript result "metadata";
  md' ← merge_analysis md a;
  mret {| source := src; content := AnalyzeTool.text_of a;
          metadata := md'; relevance_score := AnalyzeTool.relevance a |}.

(** The two comprehensions of the analyze branch. *)
Definition analyzed_results (results : list json) : res (list scored) :=
  contents ← mapM (fun r => subscript r "content") results;
  let analyses := AnalyzeTool.run <$> contents in
  mapM (fun ra => analyzed_entry ra.1 ra.2) (zip results analyses).

Definition analyze_stage (results : list json) (max : Z) : res (list scored) :=
  analyzed ← analyzed_results results;
  mret (slice_to max (py_sorted_desc relevance_score analyzed)).

(** The list a stage run returned, the empty list if it raised. *)
Definition analyzed_of_stage (m : res (list scored)) : list scored :=
  match m with Ok l => l | Raise _ => [] end.

Inductive stage : Type := Search | Analyze.

(** What [self.policy] is bound to.  [select_action] is a method of
    ResearchPolicy; [ResearchAgent.__init__] binds [self.policy] to a
    ResearchQuery, which has no such attribute. *)
Inductive policy_object : Type :=
| PolicyObject
| QueryObject (q : ResearchQuery).

Definition AttributeError (m : string) : exc := Exc "AttributeError" m.

(** [self.policy.select_action(state)] *)
Definition call_select_action (policy : policy_object)
    (state : ResearchPolicy.flags) : res ResearchPolicy.Action :=
  match policy with
  | PolicyObject => Ok (ResearchPolicy.select_action state)
  | QueryObject _ =>
      Raise (AttributeError
        "'ResearchQuery' object has no attribute 'select_action'")
  end.

(** The binding of [__init__]:
    [ResearchQuery(query="default", sources=[SourceType.WEB], ...)]. *)
Definition init_policy : policy_object :=
  QueryObject {| query := "default"; sources := [WEB]; max_results := 5 |}.

Section Orchestrator.
(** [self.tools["search"].run], as the orchestrator sees it. *)
Variable search_run : string -> SourceType -> res (list json).

(** [self.policy] *)
Variable policy : policy_object.

(** The search branch: one call per source, gathered and flattened.  When
    several calls raise, the list order of the sources stands for the order
    in which [asyncio.gather] sees them fail. *)
Definition search_stage (q : ResearchQuery) : res (list json) :=
  search_results ← mapM (search_run (query q)) (sources q);
  mret (concat search_results).

(** The [while] loop; [trace] records the branches entered.  An exception
    of the loop condition leaves the function as it is. *)
Fixpoint run_loop (fuel : nat) (q : ResearchQuery)
    (state : ResearchPolicy.flags) (results : list json)
    (trace : list stage) : option (res (list json) * list stage) :=
  match fuel with
  | O => None
  | S fuel' =>
      match call_select_action policy state with
      | Raise e => Some (Raise e, trace)
      | Ok action =>
          if decide (ResearchPolicy.name action = "search") then
            match search_stage q with
            | Raise e => Some (Raise e, trace ++ [Search])
            | Ok items =>
                run_loop fuel' q (<["searched" := true]> state)
                         (results ++ items) (trace ++ [Search])
            end
          else if decide (ResearchPolicy.name action = "analyze") then
            match analyze_stage results (max_results q) with
            | Raise e => Some (Raise e, trace ++ [Analyze])
            | Ok final =>
                run_loop fuel' q (<["analyzed" := true]> state)
                         (scored_to_json <$> final) (trace ++ [Analyze])
            end
          else if decide (ResearchPolicy.name action = "summarize") then
            Some (Ok results, trace)
          else run_loop fuel' q state results trace
      end
  end.

Definition initial_flags : ResearchPolicy.flags :=
  <["searched" := false]> (<["analyzed" := false]> ∅).

Definition _execute_research (fuel : nat) (q : ResearchQuery)
  : option (res (list json) * list stage) :=
  run_loop fuel q initial_flags [] [].
End Orchestrator.

(** [get_research_status] *)
Definition get_research_status (task_id : string) (s : Redis.store)
  : res (option StateManager.TaskState) :=
  StateManager.get_state task_id s.

End ResearchAgent.

(** ** tools.py: SearchTool *)

Module SearchTool.
Import ResearchAgent.

(** What a call of [provider.search] does: it returns a list of items,
    returns [None] (the body of [DuckDuckGoSearch.search] is [pass]), or
    raises. *)
Inductive provider_result : Type :=
| Items (l : list json)
| Nothing
| Fails (e : exc).

(** [search(self, query, max_results)] *)
Definition provider : Type := string -> Z -> provider_result.

(** What a local variable of [run] may hold after the cache lookup.
    [self.redis] is the asyncio client and [run] calls [get] on it without
    [await] (the calls of task_queue.py and state.py are awaited): the
    call builds a coroutine object and sends no command. *)
Inductive pyval : Type :=
| PyNone
| PyText (t : text)
| PyCoroutine (command : string).

(** [if v:] *)
Definition truthy (v : pyval) : bool :=
  match v with
  | PyNone => false
  | PyText (Raw s) => negb (bool_decide (s = ""))
  | PyText (Dumps _) => true
  | PyCoroutine _ => true
  end.

(** [json.loads(v)] *)
Definition json_loads_py (v : pyval) : res json :=
  match v with
  | PyText t => json_loads t
  | PyNone =>
      Raise (TypeError
        "the JSON object must be str, bytes or bytearray, not NoneType")
  | PyCoroutine _ =>
      Raise (TypeError
        "the JSON object must be str, bytes or bytearray, not coroutine")
  end.

(** One turn of the [for] loop: [provider.search(query, max_results=5)]
    and [results.extend(provider_results)] inside the [try]; extending with
    [None] raises there too. *)
Definition extend_with (query : string) (results : list json) (p : provider)
  : list json :=
  match p query 5%Z with
  | Items l => results ++ l
  | Nothing => results
  | Fails _ => results
  end.

(** The body of [run] from the [if] on, for the value the lookup left in
    [cached_result].  The second component counts the [provider.search]
    calls made.  [setex] is called without [await] as well: the value is
    serialised, the coroutine dropped, nothing is written. *)
Definition run_body (providers : list provider) (query : string)
    (cached_result : pyval) : res json * nat :=
  if truthy cached_result then (json_loads_py cached_result, O)
  else
    let results := foldl (extend_with query) [] providers in
    let final_results := take 5 results in
    (Ok (JArr final_results), length providers).

Definition cache_key (query : string) : string := "search:" ++ query.

(** The coroutine function under the decorator. *)
Definition run_coroutine (providers : list provider) (query : string)
    (source : SourceType) : res json * nat :=
  let cached_result := PyCoroutine ("GET " ++ cache_key query) in
  run_body providers query cached_result.

(** [functools.lru_cache(maxsize=100)] around an [async def]: what it
    keeps per argument tuple is the coroutine object the first call
    built.  A coroutine object runs once. *)
Record coroutine : Type := {
  co_query : string;
  co_source : SourceType;
  co_awaited : bool
}.

Record tool : Type := {
  lru : list (string * SourceType * nat);
  coroutines : list coroutine
}.

Definition fresh : tool := {| lru := []; coroutines := [] |}.

#[global] Instance SourceType_eq_dec : EqDecision SourceType.
Proof. solve_decision. Defined.

Fixpoint lru_find (q : string) (src : SourceType)
    (entries : list (string * SourceType * nat)) : option nat :=
  match entries with
  | [] => None
  | (q', src', id) :: rest =>
      if decide (q = q' /\ src = src') then Some id
      else lru_find q src rest
  end.

Definition lru_drop (q : string) (src : SourceType)
    (entries : list (string * SourceType * nat))
  : list (string * SourceType * nat) :=
  filter (fun e => ¬ (q = e.1.1 /\ src = e.1.2)) entries.

(** [tool.run(query, source)]: the decorated call.  It returns a
    coroutine object, by its index. *)
Definition run (t : tool) (q : string) (src : SourceType) : tool * nat :=
  match lru_find q src (lru t) with
  | Some id =>
      ({| lru := (q, src, id) :: lru_drop q src (lru t);
          coroutines := coroutines t |}, id)
  | None =>
      let id := length (coroutines t) in
      ({| lru := take 100 ((q, src, id) :: lru t);
          coroutines := coroutines t ++
            [{| co_query := q; co_source := src; co_awaited := false |}] |},
       id)
  end.

(** [await c] *)
Definition await (providers : list provider) (t : tool) (id : nat)
  : tool * (res json * nat) :=
  match coroutines t !! id with
  | None => (t, (Raise (RuntimeError "no such coroutine"), O))
  | Some c =>
      if co_awaited c then
        (t, (Raise (RuntimeError "cannot reuse already awaited coroutine"), O))
      else
        ({| lru := lru t;
            coroutines := <[id := {| co_query := co_query c;
                                     co_source := co_source c;
                                     co_awaited := true |}]> (coroutines t) |},
         run_coroutine providers (co_query c) (co_source c))
  end.

(** [await tool.run(query, source)], what the orchestrator's [gather]
    does with each call. *)
Definition fetch (providers : list provider) (t : tool) (q : string)
    (src : SourceType) : tool * (res json * nat) :=
  let '(t1, id) := run t q src in
  await providers t1 id.

End SearchTool.

(** ** tools.py: the semaphore of a SearchTool

    [asyncio.Semaphore(settings.MAX_CONCURRENT_REQUESTS)] is built once in
    [SearchTool.__init__]; every execution of [run] on that tool enters
    [async with self._semaphore] before its provider loop.  The executions
    interleave at their [await]s; an event is one such move. *)

Module Semaphore.

(** Where one execution of [run] stands. *)
Inductive phase : Type :=
| Queued               (* started, not yet inside [async with] *)
| Holding (todo : nat) (* inside, [todo] providers still to call *)
| InCall (todo : nat)  (* inside, awaiting [provider.search] *)
| Returned.

Record sys : Type := {
  permits : nat;
  runs : list phase
}.

Inductive event : Type :=
| Spawn                (* another [run] starts *)
| Early (i : nat)      (* run [i] leaves before the semaphore *)
| Acquire (i : nat)
| Call (i : nat)
| Reply (i : nat)      (* the provider call returns or raises *)
| Release (i : nat)
| Cancel (i : nat).    (* run [i] is cancelled inside the block *)

Section Steps.
(** [settings.MAX_CONCURRENT_REQUESTS] and [len(self.providers)]. *)
Variables (MAX_CONCURRENT_REQUESTS n_providers : nat).

Definition init : sys :=
  {| permits := MAX_CONCURRENT_REQUESTS; runs := [] |}.

Definition step (s : sys) (ev : event) : option sys :=
  match ev with
  | Spawn => Some {| permits := permits s; runs := runs s ++ [Queued] |}
  | Early i =>
      match runs s !! i with
      | Some Queued =>
          Some {| permits := permits s; runs := <[i := Returned]> (runs s) |}
      | _ => None
      end
  | Acquire i =>
      match runs s !! i, permits s with
      | Some Queued, S p =>
          Some {| permits := p;
                  runs := <[i := Holding n_providers]> (runs s) |}
      | _, _ => None
      end
  | Call i =>
      match runs s !! i with
      | Some (Holding (S k)) =>
          Some {| permits := permits s; runs := <[i := InCall k]> (runs s) |}
      | _ => None
      end
  | Reply i =>
      match runs s !! i with
      | Some (InCall k) =>
          Some {| permits := permits s; runs := <[i := Holding k]> (runs s) |}
      | _ => None
      end
  | Release i =>
      match runs s !! i with
      | Some (Holding O) =>
          Some {| permits := S (permits s);
                  runs := <[i := Returned]> (runs s) |}
      | _ => None
      end
  | Cancel i =>
      match runs s !! i with
      | Some (Holding _) | Some (InCall _) =>
          Some {| permits := S (permits s);
                  runs := <[i := Returned]> (runs s) |}
      | _ => None
      end
  end.

Fixpoint exec (s : sys) (evs : list event) : option sys :=
  match evs with
  | [] => Some s
  | ev :: rest =>
      match step s ev with
      | Some s' => exec s' rest
      | None => None
      end
  end.
End Steps.

Definition calling (p : phase) : nat :=
  match p with InCall _ => 1 | _ => 0 end.

Definition inside (p : phase) : nat :=
  match p with Holding _ | InCall _ => 1 | _ => 0 end.

(** The number of [provider.search] calls in flight. *)
Definition in_flight (s : sys) : nat := sum_list_with calling (runs s).

Definition holders (s : sys) : nat := sum_list_with inside (runs s).

(** The semaphore accounts for every execution inside the block. *)
Definition balanced (max : nat) (s : sys) : Prop :=
  permits s + holders s = max.

(** Three executions on a semaphore of two: two acquire and call. *)
Definition burst : list event :=
  [Spawn; Spawn; Spawn; Acquire 0; Acquire 1; Call 0; Call 1].

End Semaphore.

(** ** Vocabulary of the statements *)

Module Observe.
Import Redis MessageQueue.

(** The pending sequence, head first. *)
Definition pending (s : store) : list text :=
  match s !! queue_key with
  | Some (RList l) => l
  | _ => []
  end.

(** The ids of the descriptors the queue holds. *)
Definition queued_id (t : text) : option json :=
  match t with
  | Dumps (JObj fields) => assoc "task_id" fields
  | _ => None
  end.

(** The TaskStore has an entry for the id. *)
Definition has_entry (task_id : string) (s : store) : Prop :=
  is_Some (s !! task_key task_id).

(** The two stores agree: the TaskStore has an entry for every id the
    queue holds. *)
Definition stores_agree (s : store) : Prop :=
  forall (t : text) (id : string),
    t ∈ pending s -> queued_id t = Some (JStr id) -> has_entry id s.

(** The fields of an entry the consumer loop writes. *)
Definition consumer_field (f : string) : Prop :=
  f ∈ ["status"; "result"; "completed_at"; "error"; "failed_at"].

(** HSET on the key will not be refused. *)
Definition entry_writable (key : string) (s : store) : Prop :=
  s !! key = None \/ exists h, s !! key = Some (RHash h).

(** The fields the terminal transition writes for a handler outcome. *)
Definition outcome_fields (o : res json) (now : string)
  : list (string * text) :=
  match o with
  | Ok result => completed_fields result now
  | Raise e => failed_fields e now
  end.

(** The status value and the stamp field of a terminal transition. *)
Definition outcome_status (o : res json) : TaskStatus :=
  match o with Ok _ => COMPLETED | Raise _ => FAILED end.

Definition outcome_stamp (o : res json) : string :=
  match o with Ok _ => "completed_at" | Raise _ => "failed_at" end.

Definition is_hash (key : string) (s : store) : Prop :=
  exists h, s !! key = Some (RHash h).

(** What the queue does to the store over time: producers enqueue, the
    consumer loop iterates.  An [enqueue_task] that raises leaves the store
    as its last write that went through left it. *)
Inductive op : Type :=
| Enqueue (r : request)
| Consume (handlers : gmap string handler) (now : string).

Definition apply_op (o : op) (s : store) : option store :=
  match o with
  | Enqueue r =>
      match enqueue_push r s with
      | Raise _ => Some s
      | Ok s1 =>
          match enqueue_init r s1 with
          | Ok s2 => Some s2
          | Raise _ => Some s1
          end
      end
  | Consume handlers now => process_one handlers now s
  end.

Fixpoint apply_ops (os : list op) (s : store) : option store :=
  match os with
  | [] => Some s
  | o :: rest =>
      match apply_op o s with
      | Some s' => apply_ops rest s'
      | None => None
      end
  end.

End Observe.

(** ** Vocabulary of the ranking statements *)

Module Ranking.

(** [a] may stand before [b] in a descending order. *)
Definition desc {A : Type} (key : A -> Q) (a b : A) : Prop :=
  (key b <= key a)%Q.

(** The entries of a list whose score equals [k], in the order of the
    list. *)
Definition with_score {A : Type} (key : A -> Q) (k : Q) (l : list A)
  : list A :=
  List.filter (fun x => Qeq_bool (key x) k) l.

(** The scores [0.2, 0.9, 0.9, 0.1] of four named items. *)
Definition four_items : list (string * Q) :=
  [("item1", 2 # 10); ("item2", 9 # 10); ("item3", 9 # 10); ("item4", 1 # 10)].

Definition item (src content : string) : json :=
  JObj [("source", JStr src); ("content", JStr content);
        ("metadata", JObj [("title", JStr content)])].

(** Four fetched items, of content lengths 2, 9, 9 and 1. *)
Definition fetched : list json :=
  [item "web" "aa"; item "news" "bbbbbbbbb"; item "academic" "ccccccccc";
   item "web" "d"].

Definition fetched_analyzed : list ResearchAgent.scored :=
  ResearchAgent.analyzed_of_stage (ResearchAgent.analyzed_results fetched).

End Ranking.

(** ** Vocabulary of the fetch statements *)

Module Fetch.
Import SearchTool.

(** The items a provider adds to the results of a fetch. *)
Definition contribution (query : string) (p : provider) : list json :=
  match p query 5%Z with
  | Items l => l
  | Nothing => []
  | Fails _ => []
  end.

Definition hit (title : string) : json := JObj [("title", JStr title)].

Definition google : provider :=
  fun _ _ => Items [hit "g1"; hit "g2"; hit "g3"].
Definition serper : provider :=
  fun _ _ => Items [hit "s1"; hit "s2"; hit "s3"].
Definition duckduckgo : provider := fun _ _ => Nothing.
Definition broken : provider :=
  fun _ _ => Fails (Exc "HTTPStatusError" "503 Service Unavailable").

(** The tool after a first [await tool.run(q, WEB)]. *)
Definition after_first (providers : list provider) (q : string) : tool :=
  (fetch providers fresh q ResearchAgent.WEB).1.

(** The tool after a run of awaited calls, [await tool.run(q, src)] for
    each pair in turn. *)
Definition fetch_all (providers : list provider)
    (calls : list (string * ResearchAgent.SourceType)) (t : tool) : tool :=
  foldl (fun t c => (fetch providers t c.1 c.2).1) t calls.

(** The cache of the decorator names coroutine objects that exist, and holds
    at most [maxsize] of them. *)
Definition lru_ok (t : tool) : Prop :=
  Forall (fun e => e.2 < length (coroutines t)) (lru t) /\
  length (lru t) <= 100.

End Fetch.

(** ** A sample query *)

Module SampleQuery.
Import ResearchAgent.

Definition quantum : ResearchQuery :=
  {| query := "quantum computing"; sources := [ACADEMIC; NEWS];
     max_results := 2 |}.

End SampleQuery.

(** ** Sample inputs *)

Module Sample.
Import Redis MessageQueue.

Definition payload (q : string) : json :=
  JObj [("query", JObj [("query", JStr q);
                        ("sources", JArr [JStr "academic"; JStr "news"]);
                        ("max_results", JInt 2)])].

Definition r1 : request :=
  Request "research" (payload "quantum computing") "id-1" "2024-05-01T10:00:00".
Definition r2 : request :=
  Request "research" (payload "graph colouring") "id-2" "2024-05-01T10:00:01".
Definition r3 : request :=
  Request "research" (payload "tidal energy") "id-3" "2024-05-01T10:00:02".

Definition store_of (m : res store) : store :=
  match m with Ok s => s | Raise _ => ∅ end.

(** The store between the two writes of [enqueue_task r1]. *)
Definition half_enqueued : store := store_of (enqueue_push r1 ∅).

(** The store after three [enqueue_task] calls. *)
Definition three_enqueued : store := store_of (enqueue_all [r1; r2; r3] ∅).

Definition one_enqueued : store := store_of (enqueue_all [r1] ∅).

Definition returning (result : json) : gmap string handler :=
  {["research" := fun _ : json => Ok result]}.

Definition raising (e : exc) : gmap string handler :=
  {["research" := fun _ : json => Raise e]}.

Definition state_of (m : option store) : store :=
  match m with Some s => s | None => ∅ end.

(** [r1] enqueued, then served by a handler that returns an empty list. *)
Definition one_completed : store :=
  state_of (process_one (returning (JArr [])) "2024-05-01T10:00:09" one_enqueued).

(** [r1] enqueued, then served by a handler that raises [Exception()]. *)
Definition one_failed : store :=
  state_of (process_one (raising (Exc "Exception" "")) "2024-05-01T10:00:09"
              one_enqueued).

Definition two_enqueued : store := store_of (enqueue_all [r1; r2] ∅).

(** [r1] and [r2] enqueued, one iteration: it serves [r2]. *)
Definition two_served : store :=
  state_of (process_one (returning (JArr [])) "2024-05-01T10:00:09" two_enqueued).

(** A state as a caller of [set_state] may build it. *)
Definition failed_state : StateManager.TaskState :=
  {| StateManager.task_id := JStr "id-1";
     StateManager.status := StateManager.FAILED;
     StateManager.created_at := StateManager.Datetime "2024-05-01T10:00:00";
     StateManager.updated_at := StateManager.Datetime "2024-05-01T10:00:05";
     StateManager.data := JObj [];
     StateManager.error := JStr "timeout" |}.

End Sample.

(** ** models.py: ResearchTask *)

Module ResearchTask.

Record t : Type := {
  task_id : string;
  query : ResearchAgent.ResearchQuery;
  status : MessageQueue.TaskStatus;
  created_at : string;
  updated_at : string;
  completed_at : option string;
  results : list json;
  error : option string;
  progress : Q;
  metadata : json
}.

(** [if error:] on an optional string. *)
Definition given (error : option string) : bool :=
  match error with
  | None => false
  | Some e => negb (bool_decide (e = ""))
  end.

(** One call of [update_status]: its two arguments and the two readings of
    the clock it may take. *)
Record call : Type := {
  new_status : MessageQueue.TaskStatus;
  new_error : option string;
  now_updated : string;
  now_completed : string
}.

Definition update_status (self : t) (c : call) : t :=
  let error' := if given (new_error c) then new_error c else error self in
  let completed :=
    match new_status c with MessageQueue.COMPLETED => true | _ => false end in
  {| task_id := task_id self;
     query := query self;
     status := new_status c;
     created_at := created_at self;
     updated_at := now_updated c;
     completed_at :=
       if completed then Some (now_completed c) else completed_at self;
     results := results self;
     error := error';
     progress := if completed then 1 else progress self;
     metadata := metadata self |}.

End ResearchTask.

(** ** tracing.py: the in-memory StateManager *)

Module MemoryStateManager.
Section Store.
Context {TaskState : Type}.

Definition get_state (task_id : string) (states : gmap string TaskState)
  : option TaskState :=
  states !! task_id.

Definition set_state (task_id : string) (state : TaskState)
    (states : gmap string TaskState) : gmap string TaskState :=
  <[task_id := state]> states.

(** [if task_id in self.states: del self.states[task_id]] *)
Definition delete_state (task_id : string) (states : gmap string TaskState)
  : gmap string TaskState :=
  match states !! task_id with
  | Some _ => delete task_id states
  | None => states
  end.
End Store.
End MemoryStateManager.

(** ** Runs of the consumer loop and of one execution under the semaphore *)

Module Runs.
Import Redis MessageQueue.

(** Consecutive iterations of [process_queue], one per reading of the
    clock. *)
Fixpoint iterate (handlers : gmap string handler) (nows : list string)
    (s : store) : option store :=
  match nows with
  | [] => Some s
  | now :: rest =>
      match process_one handlers now s with
      | Some s' => iterate handlers rest s'
      | None => None
      end
  end.


(** The moves of execution [i] of [run] when nothing cuts it short: it
    enters the block, calls its [n] providers one after the other and
    leaves the block. *)
Definition solo (i n : nat) : list Semaphore.event :=
  Semaphore.Acquire i
    :: concat (replicate n [Semaphore.Call i; Semaphore.Reply i])
    ++ [Semaphore.Release i].

(** The [provider.search] calls execution [i] starts in a schedule. *)
Fixpoint calls_of (i : nat) (evs : list Semaphore.event) : nat :=
  match evs with
  | [] => 0
  | Semaphore.Call j :: rest =>
      (if decide (i = j) then 1 else 0) + calls_of i rest
  | _ :: rest => calls_of i rest
  end.

(** The calls an execution may still start, [n] providers being
    registered: all of them before it enters the loop, those left to do
    inside, none once it has returned. *)
Definition calls_left (n : nat) (p : option Semaphore.phase) : nat :=
  match p with
  | None | Some Semaphore.Queued => n
  | Some (Semaphore.Holding k) | Some (Semaphore.InCall k) => k
  | Some Semaphore.Returned => 0
  end.

(** A search tool that finds the four sample items for the first source and
    nothing for the others. *)
Definition sample_search (q : string) (src : ResearchAgent.SourceType)
  : res (list json) :=
  match src with
  | ResearchAgent.ACADEMIC => Ok Ranking.fetched
  | _ => Ok []
  end.

End Runs.

(** ** Vocabulary of the analysis statements *)

Module Sentences.

(** The number of full stops of a text. *)
Fixpoint dots (s : string) : nat :=
  match s with
  | EmptyString => 0
  | String c rest => (if decide (c = "."%char) then 1 else 0) + dots rest
  end.

End Sentences.

(** * Properties *)

Section QueueFacts.
Import Redis MessageQueue Observe.

Lemma task_key_not_queue (id : string) : task_key id <> queue_key.
Proof. unfold task_key, queue_key. simpl. discriminate. Qed.

Lemma enqueue_task_steps (r : request) (s s' : store) (id : string) :
  enqueue_task r s = Ok (s', id) ->
  id = req_uuid r /\
  exists s1, enqueue_push r s = Ok s1 /\ enqueue_init r s1 = Ok s'.
Proof.
  unfold enqueue_task.
  destruct (enqueue_push r s) as [s1|e]; cbn; [|discriminate].
  destruct (enqueue_init r s1) as [s2|e] eqn:E2; cbn; [|discriminate].
  intros [= <- <-]. split; [reflexivity|]. exists s1. by split.
Qed.

Lemma pending_push (r : request) (s s1 : store) :
  enqueue_push r s = Ok s1 ->
  pending s1 = Dumps (task_data r) :: pending s.
Proof.
  unfold enqueue_push, lpush, pending.
  destruct (s !! queue_key) as [[t|l|h]|] eqn:E; intros [= <-];
    by rewrite lookup_insert_eq.
Qed.

Lemma pending_init (r : request) (s s1 : store) :
  enqueue_init r s = Ok s1 -> pending s1 = pending s.
Proof.
  unfold enqueue_init, hset, pending.
  pose proof (task_key_not_queue (req_uuid r)) as Hne.
  destruct (s !! task_key (req_uuid r)) as [[t|l|h]|]; intros [= <-];
    by rewrite lookup_insert_ne.
Qed.

Lemma pending_enqueue_all (rs : list request) (s s' : store) :
  enqueue_all rs s = Ok s' ->
  pending s' = reverse (Dumps <$> (task_data <$> rs)) ++ pending s.
Proof.
  revert s. induction rs as [|r rs IH]; intros s; simpl.
  - by intros [= <-].
  - destruct (enqueue_task r s) as [[s1 id]|e] eqn:E; [|discriminate].
    intros H. apply IH in H. rewrite H.
    apply enqueue_task_steps in E as (_ & s0 & Hp & Hi).
    rewrite (pending_init _ _ _ Hi), (pending_push _ _ _ Hp).
    cbn [fmap list_fmap]. rewrite reverse_cons. by rewrite <- app_assoc.
Qed.

Lemma deliveries_empty (n : nat) (s : store) :
  pending s = [] -> deliveries n s = [].
Proof.
  induction n as [|n IH]; [done|]. intros Hp. simpl.
  specialize (IH Hp). unfold blpop. unfold pending in Hp.
  destruct (s !! queue_key) as [[t|l|h]|] eqn:E; auto.
  by subst l.
Qed.

Lemma blpop_head (s : store) (v : text) (rest : list text) :
  s !! queue_key = Some (RList (v :: rest)) ->
  exists s1, blpop queue_key s = Ok (s1, Some (queue_key, v)) /\
             pending s1 = rest /\
             forall k, k <> queue_key -> s1 !! k = s !! k.
Proof.
  unfold blpop, pending. intros ->. destruct rest as [|v' rest].
  - eexists. split; [reflexivity|]. split.
    + by rewrite lookup_delete_eq.
    + intros k Hk. by rewrite lookup_delete_ne.
  - eexists. split; [reflexivity|]. split.
    + by rewrite lookup_insert_eq.
    + intros k Hk. by rewrite lookup_insert_ne.
Qed.

Lemma pending_cons (s : store) (v : text) (rest : list text) :
  pending s = v :: rest -> s !! queue_key = Some (RList (v :: rest)).
Proof.
  unfold pending. destruct (s !! queue_key) as [[t|l|h]|]; try discriminate.
  by intros ->.
Qed.

Lemma deliveries_dumps (n : nat) (s : store) (js : list json)
    (older : list text) :
  pending s = (Dumps <$> js) ++ older -> n <= length js ->
  deliveries n s = take n js.
Proof.
  revert s js. induction n as [|n IH]; intros s js Hp Hn; [done|].
  destruct js as [|j js]; [cbn in Hn; lia|].
  cbn in Hp. apply pending_cons in Hp.
  destruct (blpop_head _ _ _ Hp) as (s1 & Hpop & Hrest & _).
  cbn. rewrite Hpop. cbn. f_equal. apply IH; [exact Hrest|cbn in Hn; lia].
Qed.
End QueueFacts.

(** C3.  Tasks enqueued one after the other and then popped by the
    consumer loop, with no enqueue in between, come out last in, first out:
    whatever the queue held before, the pops deliver the new descriptors in
    the reverse of the order of the [enqueue_task] calls, the most recent
    one first ([n] pops deliver the first [n] of them). *)
Theorem lifo_delivery (rs : list MessageQueue.request) (s s' : Redis.store)
    (n : nat) :
  MessageQueue.enqueue_all rs s = Ok s' ->
  n <= length rs ->
  MessageQueue.deliveries n s' =
    take n (reverse (MessageQueue.task_data <$> rs)).
Proof.
  intros He Hn. apply (deliveries_dumps _ _ _ (Observe.pending s)).
  - rewrite (pending_enqueue_all _ _ _ He). by rewrite fmap_reverse.
  - by rewrite length_reverse, length_fmap.
Qed.

Lemma lifo_delivery_witness :
  MessageQueue.deliveries 2 Sample.three_enqueued =
    take 2 (reverse (MessageQueue.task_data <$> [Sample.r1; Sample.r2; Sample.r3])).
Proof.
  apply (lifo_delivery [Sample.r1; Sample.r2; Sample.r3] ∅
           Sample.three_enqueued 2).
  - vm_compute. reflexivity.
  - cbn. lia.
Defined.

Example lifo_three :
  MessageQueue.deliveries 3 Sample.three_enqueued =
    MessageQueue.task_data <$> [Sample.r3; Sample.r2; Sample.r1].
Proof. vm_compute. reflexivity. Qed.

Section EnqueueFacts.
Import Redis MessageQueue Observe.

Lemma push_other (r : request) (s s1 : store) (key : string) :
  enqueue_push r s = Ok s1 -> key <> queue_key -> s1 !! key = s !! key.
Proof.
  unfold enqueue_push, lpush. intros H Hne.
  destruct (s !! queue_key) as [[t|l|h]|]; simplify_eq;
    by rewrite lookup_insert_ne.
Qed.

Lemma init_entry (r : request) (s s1 : store) :
  enqueue_init r s = Ok s1 ->
  exists h, s1 !! task_key (req_uuid r) = Some (RHash h) /\
            h !! "status" = Some (Raw "pending") /\
            h !! "data" = Some (Dumps (task_data r)).
Proof.
  unfold enqueue_init, hset. intros H.
  destruct (s !! task_key (req_uuid r)) as [[t|l|h]|]; simplify_eq;
    rewrite lookup_insert_eq; eexists; (split; [reflexivity|]);
    split; try reflexivity.
  - apply lookup_union_Some_l. reflexivity.
  - apply lookup_union_Some_l. reflexivity.
Qed.

Lemma init_other (r : request) (s s1 : store) (key : string) :
  enqueue_init r s = Ok s1 -> key <> task_key (req_uuid r) ->
  s1 !! key = s !! key.
Proof.
  unfold enqueue_init, hset. intros H Hne.
  destruct (s !! task_key (req_uuid r)) as [[t|l|h]|]; simplify_eq;
    by rewrite lookup_insert_ne.
Qed.

Lemma init_keeps_entries (r : request) (s s1 : store) (key : string) :
  enqueue_init r s = Ok s1 -> is_Some (s !! key) -> is_Some (s1 !! key).
Proof.
  intros H Hs. destruct (decide (key = task_key (req_uuid r))) as [->|Hne].
  - destruct (init_entry _ _ _ H) as (h & -> & _). eauto.
  - by rewrite (init_other _ _ _ _ H Hne).
Qed.

Lemma enqueue_task_agree (r : request) (s s' : store) (id : string) :
  stores_agree s -> enqueue_task r s = Ok (s', id) -> stores_agree s'.
Proof.
  intros Hs He. apply enqueue_task_steps in He as (-> & s1 & Hp & Hi).
  intros t id Ht Hid. unfold has_entry.
  rewrite (pending_init _ _ _ Hi), (pending_push _ _ _ Hp) in Ht.
  apply elem_of_cons in Ht as [->|Ht].
  - simpl in Hid. injection Hid as <-.
    destruct (init_entry _ _ _ Hi) as (h & -> & _). eauto.
  - apply (init_keeps_entries _ _ _ _ Hi).
    rewrite (push_other _ _ _ _ Hp); [|apply task_key_not_queue].
    by apply (Hs t).
Qed.
End EnqueueFacts.

(** The observable state between the two writes of [enqueue_task]: the
    queue holds the new id, the TaskStore has no entry for it. *)
Lemma enqueue_between_writes :
  Observe.stores_agree ∅ /\
  MessageQueue.enqueue_push Sample.r1 ∅ = Ok Sample.half_enqueued /\
  ~ Observe.stores_agree Sample.half_enqueued.
Proof.
  split; [|split].
  - intros t id Ht. by apply elem_of_nil in Ht.
  - vm_compute. reflexivity.
  - intros H.
    assert (Hin : Dumps (MessageQueue.task_data Sample.r1)
                  ∈ Observe.pending Sample.half_enqueued)
      by (vm_compute; apply list_elem_of_here).
    specialize (H _ "id-1" Hin eq_refl).
    unfold Observe.has_entry in H. vm_compute in H.
    destruct H as [x Hx]. discriminate Hx.
Qed.

(** C4, as the code has it.  [enqueue_task] makes two writes, the push and
    then the entry: once it has returned, the descriptor heads the queue,
    the entry of its id holds status pending and the descriptor, and the
    TaskStore has an entry for every id the queue holds, if it had before
    the call. *)
Theorem enqueue_task_then_agree (r : MessageQueue.request)
    (s s' : Redis.store) (id : string) :
  Observe.stores_agree s ->
  MessageQueue.enqueue_task r s = Ok (s', id) ->
  id = MessageQueue.req_uuid r /\
  Observe.pending s' = Dumps (MessageQueue.task_data r) :: Observe.pending s /\
  Redis.hfield (MessageQueue.task_key id) "status" s' = Some (Raw "pending") /\
  Redis.hfield (MessageQueue.task_key id) "data" s'
    = Some (Dumps (MessageQueue.task_data r)) /\
  Observe.stores_agree s'.
Proof.
  intros Hs He. pose proof (enqueue_task_agree _ _ _ _ Hs He) as Ha.
  apply enqueue_task_steps in He as (-> & s1 & Hp & Hi).
  split; [reflexivity|]. split.
  - by rewrite (pending_init _ _ _ Hi), (pending_push _ _ _ Hp).
  - unfold Redis.hfield.
    destruct (init_entry _ _ _ Hi) as (h & -> & Hst & Hd). auto.
Qed.

Lemma enqueue_task_then_agree_witness :
  "id-1" = MessageQueue.req_uuid Sample.r1 /\
  Observe.pending Sample.one_enqueued
    = Dumps (MessageQueue.task_data Sample.r1) :: Observe.pending ∅ /\
  Redis.hfield (MessageQueue.task_key "id-1") "status" Sample.one_enqueued
    = Some (Raw "pending") /\
  Redis.hfield (MessageQueue.task_key "id-1") "data" Sample.one_enqueued
    = Some (Dumps (MessageQueue.task_data Sample.r1)) /\
  Observe.stores_agree Sample.one_enqueued.
Proof.
  apply (enqueue_task_then_agree Sample.r1 ∅ Sample.one_enqueued "id-1").
  - intros t id Ht. by apply elem_of_nil in Ht.
  - vm_compute. reflexivity.
Defined.

(** What an iteration of the consumer loop can change: it pops, and it
    writes some of the fields status, result, completed_at, error and
    failed_at of one entry.  A property of the store kept by those moves is
    kept by the iteration. *)
Section ConsumerPreserves.
Import Redis MessageQueue Observe.

Variable P : store -> Prop.
Hypothesis P_pop : forall s s1 r, blpop queue_key s = Ok (s1, r) -> P s -> P s1.
Hypothesis P_hset : forall key m s s1,
  Forall (fun fv => consumer_field fv.1) m ->
  hset key m s = Ok s1 -> P s -> P s1.

Lemma run_handler_preserves h task key now s s' :
  run_handler h task key now s = Ok s' -> P s -> P s'.
Proof.
  unfold run_handler. intros H Hs.
  destruct (subscript task "payload") as [payload|e1]; cbn in H.
  2: { eapply P_hset; [|exact H|exact Hs].
       repeat constructor; unfold consumer_field; set_solver. }
  destruct (h payload) as [result|e2]; cbn in H.
  2: { eapply P_hset; [|exact H|exact Hs].
       repeat constructor; unfold consumer_field; set_solver. }
  destruct (hset key (completed_fields result now) s) as [s2|e3] eqn:E.
  - injection H as <-. eapply P_hset; [|exact E|exact Hs].
    repeat constructor; unfold consumer_field; set_solver.
  - eapply P_hset; [|exact H|exact Hs].
    repeat constructor; unfold consumer_field; set_solver.
Qed.

Lemma dispatch_preserves handlers now task_json s s' :
  dispatch handlers now task_json s = Ok (Some s') -> P s -> P s'.
Proof.
  unfold dispatch. intros H Hs.
  destruct (json_loads task_json) as [task|?]; cbn in H; [|discriminate].
  destruct (subscript task "task_id") as [tid|?]; cbn in H; [|discriminate].
  destruct (subscript task "task_type") as [ty|?]; cbn in H; [|discriminate].
  destruct (handlers_get handlers ty) as [[h|]|?]; cbv [mret res_ret] in H;
    cbn in H; [| by simplify_eq | discriminate].
  destruct (format_id tid) as [id|]; cbn in H; [|discriminate].
  destruct (hset (task_key id) in_progress_fields s) as [s1|?] eqn:E1;
    [|discriminate].
  assert (Hs1 : P s1).
  { eapply P_hset; [|exact E1|exact Hs].
    repeat constructor; unfold consumer_field; set_solver. }
  destruct (run_handler h task (task_key id) now s1) as [s2|?] eqn:E2;
    cbv [mret res_ret] in H; simplify_eq; [|done].
  eapply run_handler_preserves; eauto.
Qed.

Lemma process_one_preserves handlers now s s' :
  process_one handlers now s = Some s' -> P s -> P s'.
Proof.
  unfold process_one. intros H Hs.
  destruct (blpop queue_key s) as [[s1 [[k tj]|]]|?] eqn:E;
    simplify_eq; [| by eapply P_pop | done].
  assert (Hs1 : P s1) by (by eapply P_pop).
  destruct (dispatch handlers now tj s1) as [r|?] eqn:Ed; simplify_eq; [|done].
  by eapply dispatch_preserves.
Qed.
End ConsumerPreserves.

Section ReaderWriter.
Import Redis MessageQueue Observe.

Lemma blpop_is_hash (k : string) (s s1 : store) r :
  blpop queue_key s = Ok (s1, r) -> is_hash k s -> is_hash k s1.
Proof.
  unfold blpop, is_hash. intros H [h Hh].
  destruct (decide (k = queue_key)) as [->|Hne].
  - rewrite Hh in H. discriminate.
  - destruct (s !! queue_key) as [[t|[|v [|v' l]]|h']|]; simplify_eq; eauto;
      exists h; by rewrite ?lookup_delete_ne, ?lookup_insert_ne.
Qed.

Lemma hset_is_hash (k key : string) m (s s1 : store) :
  hset key m s = Ok s1 -> is_hash k s -> is_hash k s1.
Proof.
  unfold hset, is_hash. intros H [h Hh].
  destruct (decide (k = key)) as [->|Hne].
  - rewrite Hh in H. simplify_eq. rewrite lookup_insert_eq. eauto.
  - destruct (s !! key) as [[t|l|h']|]; simplify_eq;
      exists h; by rewrite lookup_insert_ne.
Qed.

Lemma lpush_is_hash (k key : string) v (s s1 : store) :
  lpush key v s = Ok s1 -> is_hash k s -> is_hash k s1.
Proof.
  unfold lpush, is_hash. intros H [h Hh].
  destruct (decide (k = key)) as [->|Hne].
  - rewrite Hh in H. discriminate.
  - destruct (s !! key) as [[t|l|h']|]; simplify_eq;
      exists h; by rewrite lookup_insert_ne.
Qed.

Lemma apply_op_is_hash (k : string) (o : op) (s s' : store) :
  apply_op o s = Some s' -> is_hash k s -> is_hash k s'.
Proof.
  destruct o as [r|handlers now]; simpl.
  - destruct (enqueue_push r s) as [s1|e] eqn:Hp; [|by intros [= <-]].
    intros H Hk.
    assert (Hk1 : is_hash k s1) by (by eapply lpush_is_hash).
    destruct (enqueue_init r s1) as [s2|e] eqn:Hi; injection H as <-; [|done].
    by eapply hset_is_hash.
  - apply process_one_preserves.
    + intros ???. apply blpop_is_hash.
    + intros ???? _. apply hset_is_hash.
Qed.

Lemma apply_ops_is_hash (k : string) (os : list op) (s s' : store) :
  apply_ops os s = Some s' -> is_hash k s -> is_hash k s'.
Proof.
  revert s. induction os as [|o os IH]; intros s; simpl.
  - by intros [= <-].
  - destruct (apply_op o s) as [s1|] eqn:E; [|discriminate].
    intros H Hk. apply (IH _ H). by eapply apply_op_is_hash.
Qed.

Lemma get_state_on_hash (id : string) (s : store) :
  is_hash (task_key id) s -> StateManager.get_state id s = Raise WRONGTYPE.
Proof.
  intros [h Hh]. unfold StateManager.get_state, get.
  change (StateManager.task_key id) with (task_key id). by rewrite Hh.
Qed.
End ReaderWriter.

(** C2.  The entry [enqueue_task] writes for its task is a hash, and it
    stays one whatever the producers and the consumer loop do next; the
    status path reads that key with GET, which Redis refuses on a hash:
    [get_research_status] raises and never returns the state of the task. *)
Theorem status_poll_never_reads_enqueued (r : MessageQueue.request)
    (s s1 s2 : Redis.store) (id : string) (later : list Observe.op) :
  MessageQueue.enqueue_task r s = Ok (s1, id) ->
  Observe.apply_ops later s1 = Some s2 ->
  ResearchAgent.get_research_status id s2 = Raise Redis.WRONGTYPE.
Proof.
  intros He Hl. apply get_state_on_hash.
  apply (apply_ops_is_hash _ _ _ _ Hl).
  apply enqueue_task_steps in He as (-> & s0 & _ & Hi).
  destruct (init_entry _ _ _ Hi) as (h & Hh & _). by exists h.
Qed.

Lemma status_poll_never_reads_enqueued_witness :
  ResearchAgent.get_research_status "id-1" Sample.one_completed
    = Raise Redis.WRONGTYPE.
Proof.
  apply (status_poll_never_reads_enqueued Sample.r1 ∅ Sample.one_enqueued
           Sample.one_completed "id-1"
           [Observe.Consume (Sample.returning (JArr [])) "2024-05-01T10:00:09"]).
  - vm_compute. reflexivity.
  - vm_compute. reflexivity.
Defined.

Section ConsumerFacts.
Import Redis MessageQueue Observe.

Lemma hset_writable (key : string) m (s : store) :
  entry_writable key s ->
  exists s1, hset key m s = Ok s1 /\ is_hash key s1.
Proof.
  unfold hset, is_hash. intros [Hn|[h Hh]].
  - rewrite Hn. eexists. split; [reflexivity|].
    rewrite lookup_insert_eq. eauto.
  - rewrite Hh. eexists. split; [reflexivity|].
    rewrite lookup_insert_eq. eauto.
Qed.

Lemma hset_field (key : string) m (s s1 : store) (f : string) (v : text) :
  hset key m s = Ok s1 ->
  (list_to_map m : gmap string text) !! f = Some v ->
  hfield key f s1 = Some v.
Proof.
  unfold hset, hfield. intros H Hf.
  destruct (s !! key) as [[t|l|h]|]; simplify_eq;
    rewrite lookup_insert_eq; [|done].
  by apply lookup_union_Some_l.
Qed.

Lemma hset_field_kept (key : string) m (s s1 : store) (k f : string) :
  hset key m s = Ok s1 ->
  f ∉ m.*1 ->
  hfield k f s1 = hfield k f s.
Proof.
  unfold hset, hfield. intros H Hf.
  assert (Hm : (list_to_map m : gmap string text) !! f = None)
    by (by apply not_elem_of_list_to_map_1).
  destruct (decide (k = key)) as [->|Hne].
  - destruct (s !! key) as [[t|l|h]|]; simplify_eq;
      rewrite lookup_insert_eq; [|done].
    by apply lookup_union_r.
  - destruct (s !! key) as [[t|l|h]|]; simplify_eq;
      by rewrite lookup_insert_ne.
Qed.

Lemma blpop_field_kept (s s1 : store) r (k f : string) :
  blpop queue_key s = Ok (s1, r) -> hfield k f s1 = hfield k f s.
Proof.
  unfold blpop, hfield. intros H.
  destruct (decide (k = queue_key)) as [->|Hne].
  - destruct (s !! queue_key) as [[t|[|v [|v' l]]|h']|] eqn:E;
      simplify_eq; rewrite ?E, ?lookup_delete_eq, ?lookup_insert_eq; done.
  - destruct (s !! queue_key) as [[t|[|v [|v' l]]|h']|] eqn:E;
      simplify_eq; by rewrite ?lookup_delete_ne, ?lookup_insert_ne.
Qed.

Lemma task_data_id (r : request) :
  subscript (task_data r) "task_id" = Ok (JStr (req_uuid r)).
Proof. vm_compute. reflexivity. Qed.

Lemma task_data_type (r : request) :
  subscript (task_data r) "task_type" = Ok (JStr (req_type r)).
Proof. vm_compute. reflexivity. Qed.

Lemma task_data_payload (r : request) :
  subscript (task_data r) "payload" = Ok (req_payload r).
Proof. vm_compute. reflexivity. Qed.

(** An iteration that finds a descriptor written by [enqueue_task] at the
    head of the queue, with a handler registered for its type: the pop,
    the write of in_progress, the handler, the write of its outcome. *)
Lemma process_one_enqueued handlers (h : handler) (now : string)
    (r : request) (rest : list text) (s : store) :
  s !! queue_key = Some (RList (Dumps (task_data r) :: rest)) ->
  handlers !! req_type r = Some h ->
  entry_writable (task_key (req_uuid r)) s ->
  exists s1 s2 s3,
    blpop queue_key s = Ok (s1, Some (queue_key, Dumps (task_data r))) /\
    hset (task_key (req_uuid r)) in_progress_fields s1 = Ok s2 /\
    hset (task_key (req_uuid r)) (outcome_fields (h (req_payload r)) now) s2
      = Ok s3 /\
    process_one handlers now s = Some s3.
Proof.
  intros Hq Hh Hw.
  destruct (blpop_head _ _ _ Hq) as (s1 & Hpop & _ & Hsame).
  assert (Hw1 : entry_writable (task_key (req_uuid r)) s1).
  { unfold entry_writable. rewrite Hsame; [done|apply task_key_not_queue]. }
  destruct (hset_writable _ in_progress_fields _ Hw1) as (s2 & H2 & Hh2).
  assert (Hw2 : entry_writable (task_key (req_uuid r)) s2) by (by right).
  destruct (hset_writable _ (outcome_fields (h (req_payload r)) now) _ Hw2)
    as (s3 & H3 & _).
  exists s1, s2, s3. repeat split; try done.
  unfold process_one. rewrite Hpop. unfold dispatch.
  cbn [json_loads mbind res_bind].
  rewrite task_data_id, task_data_type. cbn [mbind res_bind handlers_get].
  rewrite Hh. cbn [format_id]. rewrite H2. unfold run_handler.
  rewrite task_data_payload. cbn [mbind res_bind].
  destruct (h (req_payload r)) as [result|e]; cbn in *; by rewrite H3.
Qed.
End ConsumerFacts.

(** A handler that raises an exception with an empty message: the task is
    marked failed and the stored error is the empty string. *)
Lemma failed_with_empty_error :
  MessageQueue.process_one (Sample.raising (Exc "Exception" ""))
      "2024-05-01T10:00:09" Sample.one_enqueued = Some Sample.one_failed /\
  Redis.hfield (MessageQueue.task_key "id-1") "status" Sample.one_failed
    = Some (Raw "failed") /\
  Redis.hfield (MessageQueue.task_key "id-1") "error" Sample.one_failed
    = Some (Raw "").
Proof. repeat split; vm_compute; reflexivity. Qed.

(** C7, as the code has it.  When the handler of a task raises [e], the
    iteration of the consumer loop marks the task failed and stores
    [str(e)] as its error, with the time of the failure: the stored error
    is non-empty exactly when the message of the exception is. *)
Theorem failed_stores_exception_text (handlers : gmap string MessageQueue.handler)
    (h : MessageQueue.handler) (now : string) (r : MessageQueue.request)
    (rest : list text) (s : Redis.store) (e : exc) :
  s !! MessageQueue.queue_key
    = Some (Redis.RList (Dumps (MessageQueue.task_data r) :: rest)) ->
  handlers !! MessageQueue.req_type r = Some h ->
  Observe.entry_writable (MessageQueue.task_key (MessageQueue.req_uuid r)) s ->
  h (MessageQueue.req_payload r) = Raise e ->
  exists s',
    MessageQueue.process_one handlers now s = Some s' /\
    Redis.hfield (MessageQueue.task_key (MessageQueue.req_uuid r)) "status" s'
      = Some (Raw "failed") /\
    Redis.hfield (MessageQueue.task_key (MessageQueue.req_uuid r)) "error" s'
      = Some (Raw (py_str e)) /\
    Redis.hfield (MessageQueue.task_key (MessageQueue.req_uuid r)) "failed_at" s'
      = Some (Raw now) /\
    (py_str e = "" <->
     Redis.hfield (MessageQueue.task_key (MessageQueue.req_uuid r)) "error" s'
       = Some (Raw "")).
Proof.
  intros Hq Hh Hw He.
  destruct (process_one_enqueued handlers h now r rest s Hq Hh Hw)
    as (s1 & s2 & s3 & _ & _ & H3 & Hp).
  rewrite He in H3. cbn [Observe.outcome_fields] in H3.
  assert (Herr : Redis.hfield (MessageQueue.task_key (MessageQueue.req_uuid r))
                   "error" s3 = Some (Raw (py_str e)))
    by (apply (hset_field _ _ _ _ _ _ H3); vm_compute; reflexivity).
  exists s3. split; [exact Hp|]. split; [|split; [exact Herr|split]].
  - apply (hset_field _ _ _ _ _ _ H3). vm_compute. reflexivity.
  - apply (hset_field _ _ _ _ _ _ H3). vm_compute. reflexivity.
  - rewrite Herr. split; [by intros ->|by intros [= ->]].
Qed.

Lemma failed_stores_exception_text_witness :
  exists s',
    MessageQueue.process_one (Sample.raising (Exc "ValueError" "bad query"))
      "2024-05-01T10:00:09" Sample.one_enqueued = Some s' /\
    Redis.hfield (MessageQueue.task_key "id-1") "status" s'
      = Some (Raw "failed") /\
    Redis.hfield (MessageQueue.task_key "id-1") "error" s'
      = Some (Raw "bad query") /\
    Redis.hfield (MessageQueue.task_key "id-1") "failed_at" s'
      = Some (Raw "2024-05-01T10:00:09") /\
    ("bad query" = "" <->
     Redis.hfield (MessageQueue.task_key "id-1") "error" s' = Some (Raw "")).
Proof.
  apply (failed_stores_exception_text
           (Sample.raising (Exc "ValueError" "bad query"))
           (fun _ => Raise (Exc "ValueError" "bad query"))
           "2024-05-01T10:00:09" Sample.r1 [] Sample.one_enqueued
           (Exc "ValueError" "bad query")).
  - vm_compute. reflexivity.
  - vm_compute. reflexivity.
  - right. vm_compute. eexists. reflexivity.
  - reflexivity.
Defined.

(** A task taken from pending to completed by the consumer loop: its entry
    has no updated_at field before the transitions and none after. *)
Lemma transition_without_updated_at :
  MessageQueue.process_one (Sample.returning (JArr []))
      "2024-05-01T10:00:09" Sample.one_enqueued = Some Sample.one_completed /\
  Redis.hfield (MessageQueue.task_key "id-1") "status" Sample.one_enqueued
    = Some (Raw "pending") /\
  Redis.hfield (MessageQueue.task_key "id-1") "status" Sample.one_completed
    = Some (Raw "completed") /\
  Redis.hfield (MessageQueue.task_key "id-1") "updated_at" Sample.one_enqueued
    = None /\
  Redis.hfield (MessageQueue.task_key "id-1") "updated_at" Sample.one_completed
    = None.
Proof. repeat split; vm_compute; reflexivity. Qed.

Section UpdatedAt.
Import Redis MessageQueue Observe.

Lemma consumer_fields_not_updated_at (m : list (string * text)) :
  Forall (fun fv => consumer_field fv.1) m -> "updated_at" ∉ m.*1.
Proof.
  induction 1 as [|[f v] m Hf _ IH]; cbn; [apply not_elem_of_nil|].
  apply not_elem_of_cons. split; [|exact IH].
  intros <-. unfold consumer_field in Hf. cbn in Hf.
  repeat (apply elem_of_cons in Hf as [Hf|Hf]; [discriminate|]).
  by apply elem_of_nil in Hf.
Qed.

Lemma process_one_keeps_updated_at handlers now (s s' : store) (k : string) :
  process_one handlers now s = Some s' ->
  hfield k "updated_at" s' = hfield k "updated_at" s.
Proof.
  intros H.
  apply (process_one_preserves
           (fun x => hfield k "updated_at" x = hfield k "updated_at" s))
    with (handlers := handlers) (now := now) (s := s); [| |exact H|done].
  - intros x x1 r Hpop <-. by eapply blpop_field_kept.
  - intros key m x x1 Hm Hset <-.
    eapply hset_field_kept; [exact Hset|].
    by apply consumer_fields_not_updated_at.
Qed.
End UpdatedAt.

(** C8, as the code has it.  An iteration of the consumer loop that serves
    an enqueued task takes its entry to in_progress and then to completed
    or failed; the terminal transition stamps completed_at or failed_at
    with the time read after the handler; no transition writes updated_at:
    that field of every entry is after each transition what it was before
    the iteration. *)
Theorem transitions_leave_updated_at (handlers : gmap string MessageQueue.handler)
    (h : MessageQueue.handler) (now : string) (r : MessageQueue.request)
    (rest : list text) (s : Redis.store) :
  s !! MessageQueue.queue_key
    = Some (Redis.RList (Dumps (MessageQueue.task_data r) :: rest)) ->
  handlers !! MessageQueue.req_type r = Some h ->
  Observe.entry_writable (MessageQueue.task_key (MessageQueue.req_uuid r)) s ->
  let key := MessageQueue.task_key (MessageQueue.req_uuid r) in
  let outcome := h (MessageQueue.req_payload r) in
  exists s1 s2 s3,
    Redis.blpop MessageQueue.queue_key s
      = Ok (s1, Some (MessageQueue.queue_key, Dumps (MessageQueue.task_data r))) /\
    Redis.hset key MessageQueue.in_progress_fields s1 = Ok s2 /\
    Redis.hset key (Observe.outcome_fields outcome now) s2 = Ok s3 /\
    MessageQueue.process_one handlers now s = Some s3 /\
    Redis.hfield key "status" s2 = Some (Raw "in_progress") /\
    Redis.hfield key "status" s3
      = Some (Raw (MessageQueue.status_value (Observe.outcome_status outcome))) /\
    Redis.hfield key (Observe.outcome_stamp outcome) s3 = Some (Raw now) /\
    forall k : string,
      Redis.hfield k "updated_at" s2 = Redis.hfield k "updated_at" s /\
      Redis.hfield k "updated_at" s3 = Redis.hfield k "updated_at" s.
Proof.
  intros Hq Hh Hw key outcome.
  destruct (process_one_enqueued handlers h now r rest s Hq Hh Hw)
    as (s1 & s2 & s3 & H1 & H2 & H3 & Hp).
  exists s1, s2, s3. do 4 (split; [done|]).
  split; [|split; [|split]].
  - apply (hset_field _ _ _ _ _ _ H2). vm_compute. reflexivity.
  - apply (hset_field _ _ _ _ _ _ H3). subst outcome.
    destruct (h (MessageQueue.req_payload r)); reflexivity.
  - apply (hset_field _ _ _ _ _ _ H3). subst outcome.
    destruct (h (MessageQueue.req_payload r)); reflexivity.
  - intros k. split.
    + rewrite (hset_field_kept _ _ _ _ k "updated_at" H2).
      * by eapply blpop_field_kept.
      * cbn. intros Hin. apply list_elem_of_singleton in Hin. discriminate.
    + by apply (process_one_keeps_updated_at handlers now).
Qed.

Lemma transitions_leave_updated_at_witness :
  exists s3,
    MessageQueue.process_one (Sample.returning (JArr []))
      "2024-05-01T10:00:09" Sample.one_enqueued = Some s3 /\
    Redis.hfield (MessageQueue.task_key "id-1") "status" s3
      = Some (Raw "completed") /\
    Redis.hfield (MessageQueue.task_key "id-1") "completed_at" s3
      = Some (Raw "2024-05-01T10:00:09") /\
    Redis.hfield (MessageQueue.task_key "id-1") "updated_at" s3
      = Redis.hfield (MessageQueue.task_key "id-1") "updated_at"
          Sample.one_enqueued.
Proof.
  destruct (transitions_leave_updated_at
              (Sample.returning (JArr [])) (fun _ => Ok (JArr []))
              "2024-05-01T10:00:09" Sample.r1 [] Sample.one_enqueued)
    as (s1 & s2 & s3 & _ & _ & _ & Hp & _ & Hst & Hstamp & Hu).
  - vm_compute. reflexivity.
  - vm_compute. reflexivity.
  - right. vm_compute. eexists. reflexivity.
  - exists s3. split; [exact Hp|]. split; [exact Hst|]. split; [exact Hstamp|].
    apply Hu.
Defined.

Section SequencerFacts.
Import ResearchPolicy ResearchAgent.

Lemma select_initial :
  name (select_action initial_flags) = "search".
Proof. vm_compute. reflexivity. Qed.

Lemma select_searched :
  name (select_action (<["searched" := true]> initial_flags)) = "analyze".
Proof. vm_compute. reflexivity. Qed.

Lemma select_analyzed :
  name (select_action
          (<["analyzed" := true]> (<["searched" := true]> initial_flags)))
    = "summarize".
Proof. vm_compute. reflexivity. Qed.
End SequencerFacts.

Section OrchestratorFacts.
Import ResearchAgent.

(** With a ResearchPolicy bound, the loop takes its turns in order. *)
Lemma execute_research_turns
    (search_run : string -> SourceType -> res (list json))
    (q : ResearchQuery) (extra : nat) :
  _execute_research search_run PolicyObject (3 + extra) q =
    match search_stage search_run q with
    | Raise e => Some (Raise e, [Search])
    | Ok items =>
        match analyze_stage items (max_results q) with
        | Raise e => Some (Raise e, [Search; Analyze])
        | Ok final => Some (Ok (scored_to_json <$> final), [Search; Analyze])
        end
    end.
Proof.
  unfold _execute_research.
  cbn [Nat.add run_loop call_select_action].
  rewrite select_initial.
  destruct (decide ("search" = "search")) as [_|Hne]; [|done].
  destruct (search_stage search_run q) as [items|e]; [|reflexivity].
  rewrite select_searched.
  destruct (decide ("analyze" = "search")) as [Heq|_]; [discriminate|].
  destruct (decide ("analyze" = "analyze")) as [_|Hne]; [|done].
  cbn [app].
  destruct (analyze_stage items (max_results q)) as [final|e]; [|reflexivity].
  destruct extra; cbn [run_loop call_select_action]; rewrite select_analyzed;
    (destruct (decide ("summarize" = "search")) as [Heq|_]; [discriminate|]);
    (destruct (decide ("summarize" = "analyze")) as [Heq|_]; [discriminate|]);
    (destruct (decide ("summarize" = "summarize")) as [_|Hne]; [|done]);
    reflexivity.
Qed.
End OrchestratorFacts.

(** C9, on the code.  [select_action] is the rule on the two flags:
    search while searched is not set, else analyze while analyzed is not
    set, else summarize.  The orchestrator of an agent as [__init__] builds
    it does not reach it: [self.policy] is a ResearchQuery, the first
    [self.policy.select_action(state)] raises AttributeError, and the run
    ends there for every query and every search tool, with no search and no
    analyze step.  With a ResearchPolicy bound in its place the loop would
    take one search turn and, unless the search raised, one analyze turn. *)
Theorem orchestrator_policy_unbound :
  (forall state : ResearchPolicy.flags,
     ResearchPolicy.select_action state =
       match state !! "searched", state !! "analyzed" with
       | Some true, Some true =>
           {| ResearchPolicy.name := "summarize"; ResearchPolicy.priority := 3 |}
       | Some true, _ =>
           {| ResearchPolicy.name := "analyze"; ResearchPolicy.priority := 2 |}
       | _, _ =>
           {| ResearchPolicy.name := "search"; ResearchPolicy.priority := 1 |}
       end) /\
  (forall (search_run : string -> ResearchAgent.SourceType -> res (list json))
          (q : ResearchAgent.ResearchQuery) (fuel : nat),
     ResearchAgent._execute_research search_run ResearchAgent.init_policy
         (S fuel) q
       = Some (Raise (ResearchAgent.AttributeError
                 "'ResearchQuery' object has no attribute 'select_action'"),
               [])) /\
  (forall (search_run : string -> ResearchAgent.SourceType -> res (list json))
          (q : ResearchAgent.ResearchQuery) (extra : nat),
     ResearchAgent._execute_research search_run ResearchAgent.PolicyObject
         (3 + extra) q =
       match ResearchAgent.search_stage search_run q with
       | Raise e => Some (Raise e, [ResearchAgent.Search])
       | Ok items =>
           match ResearchAgent.analyze_stage items (ResearchAgent.max_results q) with
           | Raise e =>
               Some (Raise e, [ResearchAgent.Search; ResearchAgent.Analyze])
           | Ok final =>
               Some (Ok (ResearchAgent.scored_to_json <$> final),
                     [ResearchAgent.Search; ResearchAgent.Analyze])
           end
       end).
Proof.
  split; [|split].
  - intros state. unfold ResearchPolicy.select_action, ResearchPolicy.flag_unset.
    destruct (state !! "searched") as [[|]|];
      destruct (state !! "analyzed") as [[|]|]; reflexivity.
  - intros search_run q fuel. reflexivity.
  - apply execute_research_turns.
Qed.

(** The failing input: a valid query, handled by the agent as built. *)
Example valid_query_raises_attribute_error :
  ResearchAgent.valid_query SampleQuery.quantum /\
  ResearchAgent._execute_research Runs.sample_search ResearchAgent.init_policy
      3 SampleQuery.quantum
    = Some (Raise (ResearchAgent.AttributeError
              "'ResearchQuery' object has no attribute 'select_action'"), []).
Proof.
  split; [|reflexivity].
  unfold ResearchAgent.valid_query. cbn. repeat split; try lia. discriminate.
Qed.

Section SortFacts.
Import ResearchAgent Ranking.
Context {A : Type} (key : A -> Q).

Lemma insert_desc_perm (x : A) (l : list A) :
  insert_desc key x l ≡ₚ x :: l.
Proof.
  induction l as [|y l IH]; cbn; [done|].
  destruct (Qle_bool (key y) (key x)); [done|].
  rewrite IH. apply Permutation_swap.
Qed.

Lemma py_sorted_desc_perm (l : list A) : py_sorted_desc key l ≡ₚ l.
Proof.
  induction l as [|x l IH]; cbn; [done|].
  rewrite insert_desc_perm. by rewrite IH.
Qed.

Lemma insert_desc_sorted (x : A) (l : list A) :
  StronglySorted (desc key) l -> StronglySorted (desc key) (insert_desc key x l).
Proof.
  induction 1 as [|y l Hl IH Hy]; cbn.
  - constructor; [constructor|constructor].
  - destruct (Qle_bool (key y) (key x)) eqn:E.
    + apply Qle_bool_iff in E. constructor; [by constructor|].
      constructor; [exact E|].
      eapply Forall_impl; [exact Hy|]. intros z Hz. unfold desc in *.
      by eapply Qle_trans.
    + assert (Hxy : (key x <= key y)%Q).
      { apply Qlt_le_weak, Qnot_le_lt. intros Hle.
        apply Qle_bool_iff in Hle. congruence. }
      constructor; [exact IH|].
      rewrite insert_desc_perm. by constructor.
Qed.

Lemma py_sorted_desc_sorted (l : list A) :
  StronglySorted (desc key) (py_sorted_desc key l).
Proof.
  induction l as [|x l IH]; cbn; [constructor|].
  by apply insert_desc_sorted.
Qed.

Lemma insert_desc_stable (k : Q) (x : A) (l : list A) :
  with_score key k (insert_desc key x l) = with_score key k (x :: l).
Proof.
  unfold with_score. induction l as [|y l IH]; cbn; [done|].
  destruct (Qle_bool (key y) (key x)) eqn:E; [done|].
  cbn. rewrite IH. cbn.
  destruct (Qeq_bool (key x) k) eqn:Ex; [|done].
  destruct (Qeq_bool (key y) k) eqn:Ey; [|done].
  apply Qeq_bool_iff in Ex, Ey.
  assert (Hle : (key y <= key x)%Q) by (rewrite Ex, Ey; apply Qle_refl).
  apply Qle_bool_iff in Hle. congruence.
Qed.

Lemma py_sorted_desc_stable (k : Q) (l : list A) :
  with_score key k (py_sorted_desc key l) = with_score key k l.
Proof.
  induction l as [|x l IH]; [done|].
  change (py_sorted_desc key (x :: l))
    with (insert_desc key x (py_sorted_desc key l)).
  rewrite insert_desc_stable. unfold with_score in *. cbn. by rewrite IH.
Qed.
End SortFacts.

(** The ordering example: scores [0.2, 0.9, 0.9, 0.1]. *)
Example ranking_four_items :
  (ResearchAgent.py_sorted_desc snd Ranking.four_items).*1
    = ["item2"; "item3"; "item1"; "item4"].
Proof. vm_compute. reflexivity. Qed.

Section MapFacts.

Lemma mapM_res_Forall2 {A B : Type} (f : A -> res B) (l : list A)
    (l' : list B) :
  mapM f l = Ok l' -> Forall2 (fun a b => f a = Ok b) l l'.
Proof.
  revert l'. induction l as [|a l IH]; intros l'; cbn.
  - intros [= <-]. constructor.
  - destruct (f a) as [b|e] eqn:Ea; cbn; [|discriminate].
    destruct (mapM f l) as [k|e] eqn:El; cbn; [|discriminate].
    intros [= <-]. constructor; [exact Ea|by apply IH].
Qed.
End MapFacts.

Section AnalyzeFacts.
Import ResearchAgent.

Lemma analyzed_entry_score (r : json) (a : AnalyzeTool.analysis) (x : scored) :
  analyzed_entry r a = Ok x ->
  relevance_score x = AnalyzeTool.relevance a /\
  content x = AnalyzeTool.text_of a.
Proof.
  unfold analyzed_entry.
  destruct (subscript r "source") as [src|?]; cbn; [|discriminate].
  destruct (subscript r "metadata") as [md|?]; cbn; [|discriminate].
  destruct (merge_analysis md a) as [md'|?]; cbn; [|discriminate].
  by intros [= <-].
Qed.

Lemma analyzed_results_scores (results : list json) (analyzed : list scored) :
  analyzed_results results = Ok analyzed ->
  Forall2 (fun item x =>
             exists c, subscript item "content" = Ok c /\
               relevance_score x = AnalyzeTool.relevance (AnalyzeTool.run c) /\
               content x = AnalyzeTool.text_of (AnalyzeTool.run c))
          results analyzed.
Proof.
  unfold analyzed_results.
  destruct (mapM (fun r => subscript r "content") results) as [contents|?]
    eqn:Ec; cbn; [|discriminate].
  intros Ha. apply mapM_res_Forall2 in Ec, Ha.
  revert analyzed Ha.
  induction Ec as [|r c results contents Hc _ IH]; intros analyzed Ha; cbn in Ha.
  - inversion Ha. constructor.
  - inversion Ha as [|ra x zs xs Hx Hrest]; subst. cbn in Hx.
    apply analyzed_entry_score in Hx as [Hs Ht].
    constructor; [by exists c|by apply IH].
Qed.
End AnalyzeFacts.

(** C5.  In the analyze stage, the items that were fetched and scored are
    ranked by [sorted(.., reverse=True)]: the ranking holds the same
    entries, in descending relevance_score, and entries of equal score keep
    the order they had in the input; the stage returns the first
    [max_results] of the ranking, min (number of items, max_results)
    entries.  Each entry carries the relevance the analysis computed for
    the content of its item. *)
Theorem analysis_ranked_truncated (results : list json)
    (analyzed : list ResearchAgent.scored) (max : Z) :
  (1 <= max <= 50)%Z ->
  ResearchAgent.analyzed_results results = Ok analyzed ->
  let ranked :=
    ResearchAgent.py_sorted_desc ResearchAgent.relevance_score analyzed in
  ResearchAgent.analyze_stage results max = Ok (take (Z.to_nat max) ranked) /\
  ranked ≡ₚ analyzed /\
  StronglySorted (Ranking.desc ResearchAgent.relevance_score) ranked /\
  (forall k : Q,
     Ranking.with_score ResearchAgent.relevance_score k ranked
       = Ranking.with_score ResearchAgent.relevance_score k analyzed) /\
  length (take (Z.to_nat max) ranked)
    = Nat.min (length results) (Z.to_nat max) /\
  Forall2 (fun item x =>
             exists c, subscript item "content" = Ok c /\
               ResearchAgent.relevance_score x
                 = AnalyzeTool.relevance (AnalyzeTool.run c))
          results analyzed.
Proof.
  intros Hmax Ha ranked.
  pose proof (analyzed_results_scores _ _ Ha) as Hsc.
  split; [|split; [|split; [|split; [|split]]]].
  - unfold ResearchAgent.analyze_stage. rewrite Ha. cbn.
    unfold ResearchAgent.slice_to.
    destruct (Z.leb_spec 0 max) as [_|Hneg]; [reflexivity|lia].
  - apply py_sorted_desc_perm.
  - apply py_sorted_desc_sorted.
  - intros k. apply py_sorted_desc_stable.
  - rewrite length_take. subst ranked.
    rewrite (Permutation_length (py_sorted_desc_perm _ analyzed)).
    rewrite <- (Forall2_length _ _ _ Hsc). lia.
  - eapply Forall2_impl; [exact Hsc|]. intros item x (c & Hc & Hs & _). eauto.
Qed.

Lemma analysis_ranked_truncated_witness :
  ResearchAgent.analyze_stage Ranking.fetched 2
    = Ok (take 2 (ResearchAgent.py_sorted_desc ResearchAgent.relevance_score
                    Ranking.fetched_analyzed)) /\
  length (take 2 (ResearchAgent.py_sorted_desc ResearchAgent.relevance_score
                    Ranking.fetched_analyzed)) = 2%nat.
Proof.
  destruct (analysis_ranked_truncated Ranking.fetched Ranking.fetched_analyzed 2)
    as (Hst & _ & _ & _ & Hlen & _).
  - lia.
  - vm_compute. reflexivity.
  - split; [exact Hst|exact Hlen].
Defined.

Example ranking_fetched :
  ResearchAgent.content <$>
    ResearchAgent.analyzed_of_stage
      (ResearchAgent.analyze_stage Ranking.fetched 3)
    = [JStr "bbbbbbbbb"; JStr "ccccccccc"; JStr "aa"].
Proof. vm_compute. reflexivity. Qed.

Section FetchFacts.
Import SearchTool Fetch.

Lemma foldl_extend_with (query : string) (providers : list provider)
    (acc : list json) :
  foldl (extend_with query) acc providers
    = acc ++ concat (contribution query <$> providers).
Proof.
  revert acc. induction providers as [|p ps IH]; intros acc; cbn.
  - by rewrite app_nil_r.
  - rewrite IH. unfold extend_with, contribution.
    destruct (p query 5%Z); cbn; by rewrite ?app_assoc.
Qed.

Lemma run_body_miss (providers : list provider) (query : string)
    (cached_result : pyval) :
  truthy cached_result = false ->
  run_body providers query cached_result
    = (Ok (JArr (take 5 (concat (contribution query <$> providers)))),
       length providers).
Proof.
  intros Hc. unfold run_body. rewrite Hc.
  by rewrite foldl_extend_with.
Qed.
End FetchFacts.

(** The provider loop, for a lookup that left a falsy value: the result is
    the first five of the items of the providers that answered, in the order
    of the providers; a provider that raises adds no item and stops neither
    the other providers nor the loop. *)
Lemma fetch_tolerates_failing_provider (before after : list SearchTool.provider)
    (bad : SearchTool.provider) (e : exc) (query : string)
    (cached_result : SearchTool.pyval) :
  SearchTool.truthy cached_result = false ->
  bad query 5%Z = SearchTool.Fails e ->
  (SearchTool.run_body (before ++ bad :: after) query cached_result).1
    = Ok (JArr (take 5 (concat (Fetch.contribution query <$> before ++ after)))) /\
  Fetch.contribution query bad = [] /\
  (SearchTool.run_body (before ++ bad :: after) query cached_result).1
    = (SearchTool.run_body (before ++ after) query cached_result).1.
Proof.
  intros Hc Hbad.
  assert (Hb : Fetch.contribution query bad = [])
    by (unfold Fetch.contribution; by rewrite Hbad).
  rewrite !run_body_miss by done. cbn [fst].
  rewrite !fmap_app, fmap_cons, !concat_app, concat_cons, Hb. done.
Qed.

Lemma fetch_tolerates_failing_provider_witness :
  (SearchTool.run_body [Fetch.google; Fetch.broken; Fetch.serper]
     "quantum computing" SearchTool.PyNone).1
    = Ok (JArr [Fetch.hit "g1"; Fetch.hit "g2"; Fetch.hit "g3";
                Fetch.hit "s1"; Fetch.hit "s2"]).
Proof.
  destruct (fetch_tolerates_failing_provider [Fetch.google] [Fetch.serper]
              Fetch.broken (Exc "HTTPStatusError" "503 Service Unavailable")
              "quantum computing" SearchTool.PyNone) as (H & _ & _).
  - reflexivity.
  - reflexivity.
  - exact H.
Defined.

(** A provider whose [search] returns [None] is skipped the same way. *)
Example fetch_skips_none :
  SearchTool.run_body [Fetch.duckduckgo; Fetch.serper] "q" SearchTool.PyNone
    = (Ok (JArr [Fetch.hit "s1"; Fetch.hit "s2"; Fetch.hit "s3"]), 2%nat).
Proof. reflexivity. Qed.

Section LookupFacts.
Import SearchTool.

(** Whatever the providers and the query, the coroutine of [run] raises
    at the [json.loads] of the coroutine object its lookup left, before
    any provider is called. *)
Lemma run_coroutine_raises (providers : list provider) (q : string)
    (src : ResearchAgent.SourceType) :
  run_coroutine providers q src
    = (Raise (TypeError
         "the JSON object must be str, bytes or bytearray, not coroutine"),
       O).
Proof. reflexivity. Qed.

Lemma await_raises (providers : list provider) (t : tool) (id : nat) :
  exists e, (await providers t id).2 = (Raise e, O).
Proof.
  unfold await. destruct (coroutines t !! id) as [c|]; [|by eexists].
  destruct (co_awaited c); [by eexists|].
  cbn [snd]. rewrite run_coroutine_raises. by eexists.
Qed.

Lemma fetch_raises (providers : list provider) (t : tool) (q : string)
    (src : ResearchAgent.SourceType) :
  exists e, (fetch providers t q src).2 = (Raise e, O).
Proof.
  unfold fetch. destruct (run t q src) as [t1 id]. apply await_raises.
Qed.
End LookupFacts.

(** C1, on the code.  Two fetches of the same query and source on a fresh
    tool with one provider that has three items: the first raises the
    TypeError of [json.loads] on the coroutine object the lookup without
    [await] left in [cached_result]; the second gets from [lru_cache] the
    coroutine object of the first, which has already run, and raises.
    Neither calls a provider, neither returns a list of items; a fetch of
    the same query for another source raises like the first. *)
Theorem repeated_fetch_raises :
  let providers := [Fetch.google] in
  let q := "quantum computing" in
  let t1 := Fetch.after_first providers q in
  (SearchTool.fetch providers SearchTool.fresh q ResearchAgent.WEB).2
    = (Raise (TypeError
         "the JSON object must be str, bytes or bytearray, not coroutine"), O) /\
  (SearchTool.fetch providers t1 q ResearchAgent.WEB).2
    = (Raise (RuntimeError "cannot reuse already awaited coroutine"), O) /\
  (SearchTool.fetch providers t1 q ResearchAgent.NEWS).2
    = (Raise (TypeError
         "the JSON object must be str, bytes or bytearray, not coroutine"), O) /\
  (forall (providers : list SearchTool.provider) (t : SearchTool.tool)
          (q : string) (src : ResearchAgent.SourceType),
     exists e, (SearchTool.fetch providers t q src).2 = (Raise e, O)).
Proof.
  cbv zeta. split; [|split; [|split]].
  - vm_compute. reflexivity.
  - vm_compute. reflexivity.
  - vm_compute. reflexivity.
  - apply fetch_raises.
Qed.

(** C6, on the code.  Three registered providers, the second of which
    raises, and nothing cached: [run] does not return the items of the
    other two.  Its lookup without [await] leaves a coroutine object in
    [cached_result], the [if] takes it for a hit and [json.loads] raises
    TypeError, for every source, before the provider loop; no provider is
    called.  The loop by itself, entered with a falsy value, would return
    the first five items of the two providers that answer. *)
Theorem failing_provider_fetch_raises :
  let providers := [Fetch.google; Fetch.broken; Fetch.serper] in
  let q := "quantum computing" in
  (SearchTool.fetch providers SearchTool.fresh q ResearchAgent.WEB).2
    = (Raise (TypeError
         "the JSON object must be str, bytes or bytearray, not coroutine"), O) /\
  (forall src : ResearchAgent.SourceType,
     SearchTool.run_coroutine providers q src
       = (Raise (TypeError
            "the JSON object must be str, bytes or bytearray, not coroutine"),
          O)) /\
  SearchTool.run_body providers q SearchTool.PyNone
    = (Ok (JArr [Fetch.hit "g1"; Fetch.hit "g2"; Fetch.hit "g3";
                 Fetch.hit "s1"; Fetch.hit "s2"]), 3).
Proof.
  cbv zeta. split; [|split].
  - vm_compute. reflexivity.
  - intros src. apply run_coroutine_raises.
  - reflexivity.
Qed.


Section SemaphoreFacts.
Import Semaphore.

Lemma sum_list_with_insert (f : phase -> nat) (l : list phase) (i : nat)
    (x y : phase) :
  l !! i = Some x ->
  sum_list_with f (<[i := y]> l) + f x = sum_list_with f l + f y.
Proof.
  revert i. induction l as [|z l IH]; intros [|i] Hi; try discriminate.
  - injection Hi as ->.
    change (f y + sum_list_with f l + f x = f x + sum_list_with f l + f y).
    lia.
  - change (f z + sum_list_with f (<[i := y]> l) + f x
            = f z + sum_list_with f l + f y).
    specialize (IH i Hi). lia.
Qed.

Lemma in_flight_le_holders (s : sys) : in_flight s <= holders s.
Proof.
  unfold in_flight, holders. induction (runs s) as [|p l IH]; cbn; [lia|].
  destruct p; cbn; lia.
Qed.

Lemma step_balanced (max n : nat) (s s' : sys) (ev : event) :
  step n s ev = Some s' -> balanced max s -> balanced max s'.
Proof.
  unfold balanced, holders. destruct s as [p l]. cbn.
  destruct ev as [|i|i|i|i|i|i]; cbn.
  - intros [= <-]. cbn. rewrite sum_list_with_app. cbn. lia.
  - destruct (l !! i) as [[]|] eqn:E; intros [= <-]; cbn.
    pose proof (sum_list_with_insert inside l i _ Returned E). cbn in *. lia.
  - destruct (l !! i) as [[]|] eqn:E; try discriminate.
    destruct p as [|p']; intros [= <-]; cbn.
    pose proof (sum_list_with_insert inside l i _ (Holding n) E).
    cbn in *. lia.
  - destruct (l !! i) as [[|[|k]|k|]|] eqn:E; intros [= <-]; cbn.
    pose proof (sum_list_with_insert inside l i _ (InCall k) E).
    cbn in *. lia.
  - destruct (l !! i) as [[|k|k|]|] eqn:E; intros [= <-]; cbn.
    pose proof (sum_list_with_insert inside l i _ (Holding k) E).
    cbn in *. lia.
  - destruct (l !! i) as [[|[|k]|k|]|] eqn:E; intros [= <-]; cbn.
    pose proof (sum_list_with_insert inside l i _ Returned E).
    cbn in *. lia.
  - destruct (l !! i) as [[|k|k|]|] eqn:E; intros [= <-]; cbn;
      pose proof (sum_list_with_insert inside l i _ Returned E);
      cbn in *; lia.
Qed.

Lemma exec_balanced (max n : nat) (evs : list event) (s s' : sys) :
  exec n s evs = Some s' -> balanced max s -> balanced max s'.
Proof.
  revert s. induction evs as [|ev evs IH]; intros s; cbn.
  - by intros [= <-].
  - destruct (step n s ev) as [s1|] eqn:E; [|discriminate].
    intros H Hb. apply (IH _ H). by eapply step_balanced.
Qed.
End SemaphoreFacts.

(** C10.  However the executions of [run] on a SearchTool interleave, and
    however many there are, the provider calls in flight never exceed
    MAX_CONCURRENT_REQUESTS: a call is made only inside the block guarded by
    the semaphore of the tool, and the permits left plus the executions
    inside the block always add up to MAX_CONCURRENT_REQUESTS. *)
Theorem provider_calls_bounded (MAX_CONCURRENT_REQUESTS n_providers : nat)
    (evs : list Semaphore.event) (s : Semaphore.sys) :
  Semaphore.exec n_providers (Semaphore.init MAX_CONCURRENT_REQUESTS) evs
    = Some s ->
  Semaphore.in_flight s <= MAX_CONCURRENT_REQUESTS /\
  Semaphore.permits s + Semaphore.holders s = MAX_CONCURRENT_REQUESTS.
Proof.
  intros H.
  assert (Hb : Semaphore.balanced MAX_CONCURRENT_REQUESTS s).
  { eapply exec_balanced; [exact H|]. unfold Semaphore.balanced. cbn. lia. }
  split; [|exact Hb].
  pose proof (in_flight_le_holders s). unfold Semaphore.balanced in Hb. lia.
Qed.

Lemma provider_calls_bounded_witness :
  Semaphore.in_flight
    {| Semaphore.permits := 0;
       Semaphore.runs := [Semaphore.InCall 0; Semaphore.InCall 0;
                          Semaphore.Queued] |} <= 2.
Proof.
  apply (provider_calls_bounded 2 1 Semaphore.burst).
  reflexivity.
Defined.

(** With both permits taken, the third execution cannot enter the block. *)
Example third_acquire_waits :
  Semaphore.exec 1 (Semaphore.init 2) (Semaphore.burst ++ [Semaphore.Acquire 2])
    = None.
Proof. reflexivity. Qed.

(** * Further properties of the queue *)

Section QueueReads.
Import Redis MessageQueue Observe.

Lemma hset_other (key k : string) m (s s1 : store) :
  hset key m s = Ok s1 -> k <> key -> s1 !! k = s !! k.
Proof.
  unfold hset. intros H Hne.
  destruct (s !! key) as [[t|l|h]|]; simplify_eq; by rewrite lookup_insert_ne.
Qed.

Lemma hset_pending (key : string) m (s s1 : store) :
  hset key m s = Ok s1 -> pending s1 = pending s.
Proof.
  intros H. unfold pending. destruct (decide (queue_key = key)) as [<-|Hne].
  - unfold hset in H.
    destruct (s !! queue_key) as [[t|l|h]|] eqn:E; simplify_eq;
      by rewrite lookup_insert_eq.
  - by rewrite (hset_other _ _ _ _ _ H Hne).
Qed.

Lemma blpop_pending (s s1 : store) r :
  blpop queue_key s = Ok (s1, r) -> pending s1 = drop 1 (pending s).
Proof.
  unfold blpop, pending.
  destruct (s !! queue_key) as [[t|[|v [|v' l]]|h]|] eqn:E; intros ?;
    simplify_eq; rewrite ?E, ?lookup_delete_eq, ?lookup_insert_eq; done.
Qed.

Lemma run_handler_other h task key now (s s' : store) (k : string) :
  run_handler h task key now s = Ok s' -> k <> key -> s' !! k = s !! k.
Proof.
  unfold run_handler. intros H Hne.
  destruct (subscript task "payload") as [payload|?]; cbn in H;
    [|by eapply hset_other].
  destruct (h payload) as [result|?]; cbn in H; [|by eapply hset_other].
  destruct (hset key (completed_fields result now) s) as [s2|?] eqn:E.
  - injection H as <-. by eapply hset_other.
  - by eapply hset_other.
Qed.
End QueueReads.

(** The entry [enqueue_task] writes for a new id reads back through
    [get_task_status] as exactly the two fields status, pending, and data,
    the descriptor. *)
Theorem status_after_enqueue (r : MessageQueue.request) (s s' : Redis.store)
    (id : string) :
  s !! MessageQueue.task_key (MessageQueue.req_uuid r) = None ->
  MessageQueue.enqueue_task r s = Ok (s', id) ->
  MessageQueue.get_task_status id s'
    = Ok (Some (list_to_map [("status", Raw "pending");
                             ("data", Dumps (MessageQueue.task_data r))])).
Proof.
  intros Hn He. apply enqueue_task_steps in He as (-> & s1 & Hp & Hi).
  unfold MessageQueue.enqueue_init, Redis.hset in Hi.
  rewrite (push_other _ _ _ _ Hp (task_key_not_queue _)), Hn in Hi.
  injection Hi as <-.
  unfold MessageQueue.get_task_status, Redis.hgetall.
  rewrite lookup_insert_eq. cbn.
  destruct (decide _) as [Heq|_]; [|reflexivity].
  apply (f_equal (fun m : gmap string text => m !! "status")) in Heq.
  vm_compute in Heq. discriminate.
Qed.

Lemma status_after_enqueue_witness :
  MessageQueue.get_task_status "id-1" Sample.one_enqueued
    = Ok (Some (list_to_map [("status", Raw "pending");
                             ("data", Dumps (MessageQueue.task_data Sample.r1))])).
Proof.
  apply (status_after_enqueue Sample.r1 ∅ Sample.one_enqueued "id-1").
  - reflexivity.
  - vm_compute. reflexivity.
Defined.

(** [get_task_status] answers [None] exactly for an id with no entry, or
    with an entry that is a hash without fields. *)
Theorem status_none_iff (id : string) (s : Redis.store) :
  MessageQueue.get_task_status id s = Ok None <->
  s !! MessageQueue.task_key id = None \/
  s !! MessageQueue.task_key id = Some (Redis.RHash ∅).
Proof.
  unfold MessageQueue.get_task_status, Redis.hgetall.
  destruct (s !! MessageQueue.task_key id) as [[t|l|h]|]; cbn.
  - split; [discriminate|]. intros [?|?]; discriminate.
  - split; [discriminate|]. intros [?|?]; discriminate.
  - destruct (decide (h = ∅)) as [->|Hne].
    + split; auto.
    + split; [discriminate|]. intros [?|[= ->]]; [discriminate|done].
  - destruct (decide _) as [_|Hne]; [|done]. split; auto.
Qed.

Lemma idle_lemma (handlers : gmap string MessageQueue.handler)
    (now : string) (s : Redis.store) :
  Observe.pending s = [] ->
  MessageQueue.process_one handlers now s = Some s.
Proof.
  unfold Observe.pending, MessageQueue.process_one, Redis.blpop.
  destruct (s !! MessageQueue.queue_key) as [[t|[|v l]|h]|]; try done.
Qed.

(** An iteration of the consumer loop on an empty queue leaves the store
    as it is. *)
Theorem idle_iteration (handlers : gmap string MessageQueue.handler)
    (now : string) (s : Redis.store) :
  Observe.pending s = [] ->
  MessageQueue.process_one handlers now s = Some s.
Proof. apply idle_lemma. Qed.

Lemma idle_iteration_witness :
  MessageQueue.process_one (Sample.returning (JArr [])) "2024-05-01T10:00:09" ∅
    = Some ∅.
Proof. apply idle_iteration. reflexivity. Defined.

Lemma iteration_pops_one_lemma (handlers : gmap string MessageQueue.handler)
    (now : string) (s s' : Redis.store) :
  MessageQueue.process_one handlers now s = Some s' ->
  Observe.pending s' = drop 1 (Observe.pending s).
Proof.
  unfold MessageQueue.process_one. intros H.
  destruct (Redis.blpop MessageQueue.queue_key s) as [[s1 [[k tj]|]]|e] eqn:E.
  - pose proof (blpop_pending _ _ _ E) as Hp.
    destruct (MessageQueue.dispatch handlers now tj s1) as [r|?] eqn:Ed;
      simplify_eq; [|done].
    rewrite <- Hp.
    apply (dispatch_preserves (fun x => Observe.pending x = Observe.pending s1))
      with (handlers := handlers) (now := now) (task_json := tj) (s := s1);
      [|done|done].
    intros key m x x1 _ Hset <-. by eapply hset_pending.
  - injection H as <-. by eapply blpop_pending.
  - injection H as <-. unfold Redis.blpop in E. unfold Observe.pending.
    destruct (s !! MessageQueue.queue_key) as [[t|[|v [|v' l]]|h]|];
      try discriminate; done.
Qed.

(** An iteration of the consumer loop takes exactly the head off the queue
    and keeps the order of the rest, whether it serves the descriptor or
    drops it and whatever the handler does; on an empty queue it takes
    nothing.  This covers every head but a descriptor with a registered
    handler whose task_id is not a string, for which [process_one] has no
    answer. *)
Theorem iteration_pops_one (handlers : gmap string MessageQueue.handler)
    (now : string) (s s' : Redis.store) :
  MessageQueue.process_one handlers now s = Some s' ->
  Observe.pending s' = drop 1 (Observe.pending s).
Proof. apply iteration_pops_one_lemma. Qed.

Lemma iteration_pops_one_witness :
  Observe.pending Sample.one_completed = drop 1 (Observe.pending Sample.one_enqueued).
Proof.
  apply (iteration_pops_one (Sample.returning (JArr [])) "2024-05-01T10:00:09").
  vm_compute. reflexivity.
Defined.

Section ServedFacts.
Import Redis MessageQueue Observe.

Lemma get_task_status_hash (id : string) (s : store) (h : gmap string text)
    (v : text) :
  s !! task_key id = Some (RHash h) -> h !! "status" = Some v ->
  get_task_status id s = Ok (Some h).
Proof.
  intros Hs Hv. unfold get_task_status, hgetall. rewrite Hs. cbn.
  destruct (decide (h = ∅)) as [->|_]; [|reflexivity].
  by rewrite lookup_empty in Hv.
Qed.

Lemma push_head (r : request) (s s1 : store) :
  enqueue_push r s = Ok s1 ->
  s1 !! queue_key = Some (RList (Dumps (task_data r) :: pending s)).
Proof. intros H. apply pending_cons. by apply pending_push. Qed.
End ServedFacts.

(** A task enqueued under a new id and then served: [get_task_status]
    reads the fields the outcome of the handler wrote (status, and result
    with completed_at or error with failed_at) and the data field of
    [enqueue_task], nothing else.  A failed task has no result field, a
    completed one no error field. *)
Theorem status_after_serving (handlers : gmap string MessageQueue.handler)
    (h : MessageQueue.handler) (now : string) (r : MessageQueue.request)
    (s s1 : Redis.store) (id : string) :
  s !! MessageQueue.task_key (MessageQueue.req_uuid r) = None ->
  MessageQueue.enqueue_task r s = Ok (s1, id) ->
  handlers !! MessageQueue.req_type r = Some h ->
  exists s2,
    MessageQueue.process_one handlers now s1 = Some s2 /\
    MessageQueue.get_task_status id s2
      = Ok (Some (list_to_map
                    (Observe.outcome_fields (h (MessageQueue.req_payload r)) now)
                  ∪ {["data" := Dumps (MessageQueue.task_data r)]})).
Proof.
  intros Hn He Hh.
  pose proof He as He'. apply enqueue_task_steps in He' as (-> & s0 & Hp & Hi).
  pose proof (push_head _ _ _ Hp) as Hq.
  assert (Hq1 : s1 !! MessageQueue.queue_key
                = Some (Redis.RList (Dumps (MessageQueue.task_data r)
                                     :: Observe.pending s))).
  { rewrite (init_other _ _ _ _ Hi); [done|].
    intros Heq. by apply (task_key_not_queue (MessageQueue.req_uuid r)). }
  assert (Hk0 : s0 !! MessageQueue.task_key (MessageQueue.req_uuid r) = None)
    by (by rewrite (push_other _ _ _ _ Hp (task_key_not_queue _))).
  assert (Hk1 : s1 !! MessageQueue.task_key (MessageQueue.req_uuid r)
                = Some (Redis.RHash (list_to_map
                     [("status", Raw "pending");
                      ("data", Dumps (MessageQueue.task_data r))]))).
  { unfold MessageQueue.enqueue_init, Redis.hset in Hi. rewrite Hk0 in Hi.
    injection Hi as <-. by rewrite lookup_insert_eq. }
  destruct (process_one_enqueued handlers h now r _ s1 Hq1 Hh)
    as (t1 & t2 & t3 & H1 & H2 & H3 & Hp1).
  { right. eauto. }
  exists t3. split; [exact Hp1|].
  destruct (blpop_head _ _ _ Hq1) as (t1' & H1' & _ & Hsame).
  rewrite H1' in H1. injection H1 as <-.
  unfold Redis.hset in H2.
  rewrite (Hsame _ (task_key_not_queue _)), Hk1 in H2. injection H2 as <-.
  unfold Redis.hset in H3. rewrite lookup_insert_eq in H3. injection H3 as <-.
  apply (get_task_status_hash _ _ _
           (Raw (MessageQueue.status_value
                   (Observe.outcome_status (h (MessageQueue.req_payload r)))))).
  - rewrite lookup_insert_eq. f_equal. f_equal.
    apply map_eq. intros i.
    destruct (h (MessageQueue.req_payload r)) as [result|e]; cbn;
      rewrite !lookup_union, !lookup_insert, !lookup_empty, lookup_singleton;
      repeat case_decide; subst; try done.
  - apply lookup_union_Some_l.
    destruct (h (MessageQueue.req_payload r)) as [result|e]; reflexivity.
Qed.

Lemma status_after_serving_witness :
  exists s2,
    MessageQueue.process_one (Sample.raising (Exc "ValueError" "bad query"))
      "2024-05-01T10:00:09" Sample.one_enqueued = Some s2 /\
    MessageQueue.get_task_status "id-1" s2
      = Ok (Some (list_to_map
                    (Observe.outcome_fields
                       (Raise (Exc "ValueError" "bad query"))
                       "2024-05-01T10:00:09")
                  ∪ {["data" := Dumps (MessageQueue.task_data Sample.r1)]})).
Proof.
  apply (status_after_serving (Sample.raising (Exc "ValueError" "bad query"))
           (fun _ => Raise (Exc "ValueError" "bad query"))
           "2024-05-01T10:00:09" Sample.r1 ∅ Sample.one_enqueued "id-1").
  - reflexivity.
  - vm_compute. reflexivity.
  - vm_compute. reflexivity.
Defined.

(** A descriptor whose type has no registered handler is dropped: the
    iteration takes it off the queue and writes nothing else, so the entry
    of the task stays as [enqueue_task] left it. *)
Theorem unregistered_type_dropped (handlers : gmap string MessageQueue.handler)
    (now : string) (r : MessageQueue.request) (rest : list text)
    (s : Redis.store) :
  s !! MessageQueue.queue_key
    = Some (Redis.RList (Dumps (MessageQueue.task_data r) :: rest)) ->
  handlers !! MessageQueue.req_type r = None ->
  exists s',
    MessageQueue.process_one handlers now s = Some s' /\
    Observe.pending s' = rest /\
    forall k : string, k <> MessageQueue.queue_key -> s' !! k = s !! k.
Proof.
  intros Hq Hh. destruct (blpop_head _ _ _ Hq) as (s1 & Hpop & Hrest & Hsame).
  exists s1. split; [|by split].
  unfold MessageQueue.process_one. rewrite Hpop.
  unfold MessageQueue.dispatch. cbn [json_loads mbind res_bind].
  rewrite task_data_id, task_data_type.
  cbn [mbind res_bind MessageQueue.handlers_get]. by rewrite Hh.
Qed.

Lemma unregistered_type_dropped_witness :
  exists s',
    MessageQueue.process_one ∅ "2024-05-01T10:00:09" Sample.one_enqueued
      = Some s' /\
    Observe.pending s' = [] /\
    forall k : string,
      k <> MessageQueue.queue_key -> s' !! k = Sample.one_enqueued !! k.
Proof.
  apply (unregistered_type_dropped ∅ "2024-05-01T10:00:09" Sample.r1 []
           Sample.one_enqueued).
  - vm_compute. reflexivity.
  - reflexivity.
Defined.

Lemma process_one_frame (handlers : gmap string MessageQueue.handler)
    (now : string) (r : MessageQueue.request) (rest : list text)
    (s s' : Redis.store) (k : string) :
  s !! MessageQueue.queue_key
    = Some (Redis.RList (Dumps (MessageQueue.task_data r) :: rest)) ->
  MessageQueue.process_one handlers now s = Some s' ->
  k <> MessageQueue.queue_key ->
  k <> MessageQueue.task_key (MessageQueue.req_uuid r) ->
  s' !! k = s !! k.
Proof.
  intros Hq Hp Hk1 Hk2.
  destruct (blpop_head _ _ _ Hq) as (s1 & Hpop & _ & Hsame).
  rewrite <- (Hsame k Hk1).
  unfold MessageQueue.process_one in Hp. rewrite Hpop in Hp.
  unfold MessageQueue.dispatch in Hp. cbn [json_loads mbind res_bind] in Hp.
  rewrite task_data_id, task_data_type in Hp.
  cbn [mbind res_bind MessageQueue.handlers_get] in Hp.
  destruct (handlers !! MessageQueue.req_type r) as [h|];
    cbn [MessageQueue.format_id] in Hp; cbv [mret res_ret] in Hp;
    [|by simplify_eq].
  destruct (Redis.hset _ MessageQueue.in_progress_fields s1) as [s2|?] eqn:E2;
    [|by simplify_eq].
  rewrite <- (hset_other _ k _ _ _ E2 Hk2).
  destruct (MessageQueue.run_handler h _ _ now s2) as [s3|?] eqn:E3;
    cbv [mret res_ret] in Hp; simplify_eq; [|done].
  by eapply run_handler_other.
Qed.

(** An iteration that serves a descriptor written by [enqueue_task] touches
    the queue and the entry of that task only: every other key of the store
    keeps its value, whatever the handler does. *)
Theorem iteration_frame (handlers : gmap string MessageQueue.handler)
    (now : string) (r : MessageQueue.request) (rest : list text)
    (s s' : Redis.store) (k : string) :
  s !! MessageQueue.queue_key
    = Some (Redis.RList (Dumps (MessageQueue.task_data r) :: rest)) ->
  MessageQueue.process_one handlers now s = Some s' ->
  k <> MessageQueue.queue_key ->
  k <> MessageQueue.task_key (MessageQueue.req_uuid r) ->
  s' !! k = s !! k.
Proof. apply process_one_frame. Qed.

Lemma iteration_frame_witness :
  Sample.two_served !! MessageQueue.task_key "id-1"
    = Sample.two_enqueued !! MessageQueue.task_key "id-1".
Proof.
  apply (iteration_frame (Sample.returning (JArr [])) "2024-05-01T10:00:09"
           Sample.r2 [Dumps (MessageQueue.task_data Sample.r1)]
           Sample.two_enqueued Sample.two_served).
  - vm_compute. reflexivity.
  - vm_compute. reflexivity.
  - discriminate.
  - discriminate.
Defined.

(** The consumer loop can serve a task between the two writes of its
    [enqueue_task]: the entry the second write then leaves says pending,
    with the result of the finished task beside it, and the task is no
    longer in the queue. *)
Theorem enqueue_overwrites_served_status
    (handlers : gmap string MessageQueue.handler) (h : MessageQueue.handler)
    (now : string) (r : MessageQueue.request) (s s1 : Redis.store)
    (result : json) :
  MessageQueue.enqueue_push r s = Ok s1 ->
  Observe.entry_writable (MessageQueue.task_key (MessageQueue.req_uuid r)) s ->
  handlers !! MessageQueue.req_type r = Some h ->
  h (MessageQueue.req_payload r) = Ok result ->
  exists s2 s3,
    MessageQueue.process_one handlers now s1 = Some s2 /\
    Redis.hfield (MessageQueue.task_key (MessageQueue.req_uuid r)) "status" s2
      = Some (Raw "completed") /\
    MessageQueue.enqueue_init r s2 = Ok s3 /\
    Redis.hfield (MessageQueue.task_key (MessageQueue.req_uuid r)) "status" s3
      = Some (Raw "pending") /\
    Redis.hfield (MessageQueue.task_key (MessageQueue.req_uuid r)) "result" s3
      = Some (Dumps result) /\
    Observe.pending s3 = Observe.pending s.
Proof.
  intros Hp Hw Hh Hres.
  pose proof (push_head _ _ _ Hp) as Hq.
  assert (Hw1 : Observe.entry_writable
                  (MessageQueue.task_key (MessageQueue.req_uuid r)) s1).
  { unfold Observe.entry_writable.
    by rewrite (push_other _ _ _ _ Hp (task_key_not_queue _)). }
  destruct (process_one_enqueued handlers h now r _ s1 Hq Hh Hw1)
    as (t1 & t2 & t3 & H1 & H2 & H3 & Hp1).
  rewrite Hres in H3. cbn [Observe.outcome_fields] in H3.
  assert (Hw3 : Observe.entry_writable
                  (MessageQueue.task_key (MessageQueue.req_uuid r)) t3).
  { right. unfold Redis.hset in H3.
    destruct (t2 !! _) as [[?|?|?]|]; simplify_eq;
      rewrite lookup_insert_eq; eauto. }
  destruct (hset_writable _ [("status", Raw "pending");
                             ("data", Dumps (MessageQueue.task_data r))] _ Hw3)
    as (s3 & Hi & _).
  exists t3, s3. split; [exact Hp1|]. split; [|split; [exact Hi|split; [|split]]].
  - apply (hset_field _ _ _ _ _ _ H3). reflexivity.
  - apply (hset_field _ _ _ _ _ _ Hi). reflexivity.
  - rewrite (hset_field_kept _ _ _ _ _ "result" Hi).
    + apply (hset_field _ _ _ _ _ _ H3). reflexivity.
    + cbn. intros Hin. apply elem_of_cons in Hin as [?|Hin]; [discriminate|].
      apply list_elem_of_singleton in Hin. discriminate.
  - rewrite (hset_pending _ _ _ _ Hi), (hset_pending _ _ _ _ H3),
      (hset_pending _ _ _ _ H2), (blpop_pending _ _ _ H1),
      (pending_push _ _ _ Hp). reflexivity.
Qed.

Lemma enqueue_overwrites_served_status_witness :
  exists s2 s3,
    MessageQueue.process_one (Sample.returning (JArr []))
      "2024-05-01T10:00:09" Sample.half_enqueued = Some s2 /\
    Redis.hfield (MessageQueue.task_key "id-1") "status" s2
      = Some (Raw "completed") /\
    MessageQueue.enqueue_init Sample.r1 s2 = Ok s3 /\
    Redis.hfield (MessageQueue.task_key "id-1") "status" s3
      = Some (Raw "pending") /\
    Redis.hfield (MessageQueue.task_key "id-1") "result" s3
      = Some (Dumps (JArr [])) /\
    Observe.pending s3 = Observe.pending ∅.
Proof.
  apply (enqueue_overwrites_served_status (Sample.returning (JArr []))
           (fun _ => Ok (JArr [])) "2024-05-01T10:00:09" Sample.r1 ∅
           Sample.half_enqueued (JArr [])).
  - vm_compute. reflexivity.
  - left. reflexivity.
  - vm_compute. reflexivity.
  - reflexivity.
Defined.

(** A state written with [StateManager.set_state] under the id of a queued
    task shuts the queue out of that entry: the iteration that serves the
    task takes it off the queue but writes no status (HSET is refused on a
    string, the outer [except] swallows the error), [get_state] reads the
    state as it was written, and [get_task_status] raises. *)
Theorem set_state_blocks_transitions
    (handlers : gmap string MessageQueue.handler) (h : MessageQueue.handler)
    (now : string) (r : MessageQueue.request) (rest : list text)
    (st : StateManager.TaskState) (s0 : Redis.store) :
  s0 !! MessageQueue.queue_key
    = Some (Redis.RList (Dumps (MessageQueue.task_data r) :: rest)) ->
  handlers !! MessageQueue.req_type r = Some h ->
  let s := StateManager.set_state (MessageQueue.req_uuid r) st s0 in
  exists s',
    MessageQueue.process_one handlers now s = Some s' /\
    Observe.pending s' = rest /\
    s' !! MessageQueue.task_key (MessageQueue.req_uuid r)
      = s !! MessageQueue.task_key (MessageQueue.req_uuid r) /\
    StateManager.get_state (MessageQueue.req_uuid r) s'
      = StateManager.get_state (MessageQueue.req_uuid r) s /\
    MessageQueue.get_task_status (MessageQueue.req_uuid r) s'
      = Raise Redis.WRONGTYPE.
Proof.
  intros Hq Hh s.
  assert (Hk : exists t, s !! MessageQueue.task_key (MessageQueue.req_uuid r)
                         = Some (Redis.RString t)).
  { eexists. unfold s, StateManager.set_state, Redis.set.
    change (StateManager.task_key ?x) with (MessageQueue.task_key x).
    apply lookup_insert_eq. }
  destruct Hk as [t Hk].
  assert (Hqs : s !! MessageQueue.queue_key
                = Some (Redis.RList (Dumps (MessageQueue.task_data r) :: rest))).
  { unfold s, StateManager.set_state, Redis.set.
    change (StateManager.task_key ?x) with (MessageQueue.task_key x).
    rewrite lookup_insert_ne; [done|apply task_key_not_queue]. }
  destruct (blpop_head _ _ _ Hqs) as (s1 & Hpop & Hrest & Hsame).
  pose proof (Hsame _ (task_key_not_queue (MessageQueue.req_uuid r))) as Hk1.
  assert (Hp : MessageQueue.process_one handlers now s = Some s1).
  { unfold MessageQueue.process_one. rewrite Hpop.
    unfold MessageQueue.dispatch. cbn [json_loads mbind res_bind].
    rewrite task_data_id, task_data_type.
    cbn [mbind res_bind MessageQueue.handlers_get]. rewrite Hh.
    cbn [MessageQueue.format_id]. unfold Redis.hset. by rewrite Hk1, Hk. }
  exists s1. split; [exact Hp|]. split; [exact Hrest|]. split; [exact Hk1|].
  split.
  - unfold StateManager.get_state, Redis.get.
    change (StateManager.task_key ?x) with (MessageQueue.task_key x).
    by rewrite Hk1.
  - unfold MessageQueue.get_task_status, Redis.hgetall. by rewrite Hk1, Hk.
Qed.

Lemma set_state_blocks_transitions_witness :
  exists s',
    MessageQueue.process_one (Sample.returning (JArr [])) "2024-05-01T10:00:09"
      (StateManager.set_state "id-1" Sample.failed_state Sample.one_enqueued)
      = Some s' /\
    Observe.pending s' = [] /\
    MessageQueue.get_task_status "id-1" s' = Raise Redis.WRONGTYPE.
Proof.
  destruct (set_state_blocks_transitions (Sample.returning (JArr []))
              (fun _ => Ok (JArr [])) "2024-05-01T10:00:09" Sample.r1 []
              Sample.failed_state Sample.one_enqueued)
    as (s' & Hp & Hq & _ & _ & Hg).
  - vm_compute. reflexivity.
  - vm_compute. reflexivity.
  - exists s'. split; [exact Hp|]. split; [exact Hq|exact Hg].
Defined.

(** * Properties of the state manager *)

Section StateFacts.
Import Redis StateManager.

Lemma task_key_inj (id id' : string) : task_key id = task_key id' -> id = id'.
Proof. unfold task_key. simpl. intros H. by injection H. Qed.

Lemma get_state_written (id : string) (st : TaskState) (s : store) :
  get_state id (set_state id st s)
    = Ok (Some {| task_id := JStr id; status := status st;
                  created_at := created_at st; updated_at := updated_at st;
                  data := data st; error := error st |}).
Proof.
  unfold get_state, set_state, get, set. rewrite lookup_insert_eq.
  destruct st as [tid stt [ca] [ua] d e]. destruct stt; vm_compute; reflexivity.
Qed.
End StateFacts.

(** [set_state] followed by [get_state] under the same id gives the state
    back, with the id of the call as its task_id; the states of the other
    ids are not touched; a second [set_state] under the same id replaces the
    first. *)
Theorem state_round_trip (id : string) (st : StateManager.TaskState)
    (s : Redis.store) :
  StateManager.get_state id (StateManager.set_state id st s)
    = Ok (Some {| StateManager.task_id := JStr id;
                  StateManager.status := StateManager.status st;
                  StateManager.created_at := StateManager.created_at st;
                  StateManager.updated_at := StateManager.updated_at st;
                  StateManager.data := StateManager.data st;
                  StateManager.error := StateManager.error st |}) /\
  (forall id' : string, id' <> id ->
     StateManager.get_state id' (StateManager.set_state id st s)
       = StateManager.get_state id' s) /\
  (forall st' : StateManager.TaskState,
     StateManager.set_state id st' (StateManager.set_state id st s)
       = StateManager.set_state id st' s).
Proof.
  split; [apply get_state_written|]. split.
  - intros id' Hne. unfold StateManager.get_state, StateManager.set_state,
      Redis.get, Redis.set.
    rewrite lookup_insert_ne; [done|].
    intros Heq. apply task_key_inj in Heq. congruence.
  - intros st'. unfold StateManager.set_state, Redis.set.
    apply insert_insert_eq.
Qed.

(** The status names [get_state] accepts are exactly the four values of the
    TaskStatus of state.py: [TaskStatus(v)] inverts [.value], and every
    other text, such as the cancelled of models.py, is refused. *)
Theorem status_of_value (v : string) (st : StateManager.TaskStatus) :
  StateManager.status_of (JStr v) = Ok st <-> v = StateManager.status_value st.
Proof.
  unfold StateManager.status_of. split.
  - repeat case_decide; subst; intros [= <-]; reflexivity.
  - intros ->. destruct st; reflexivity.
Qed.

(** * Properties of the analysis tool *)

Section AnalyzeToolFacts.
Import AnalyzeTool Sentences.

Lemma split_dot_nonempty (s : string) : split_dot s <> [].
Proof.
  destruct s as [|c rest]; cbn; [done|].
  destruct (decide (c = "."%char)); [done|].
  destruct (split_dot rest); done.
Qed.

Lemma concat_cons_nonempty (sep x : string) (l : list string) :
  l <> [] -> String.concat sep (x :: l) = (x ++ sep ++ String.concat sep l)%string.
Proof. destruct l; [done|reflexivity]. Qed.

Lemma split_dot_join (s : string) : String.concat "." (split_dot s) = s.
Proof.
  induction s as [|c rest IH]; [reflexivity|]. cbn [split_dot].
  destruct (decide (c = "."%char)) as [->|Hc].
  - rewrite concat_cons_nonempty by apply split_dot_nonempty.
    cbn. by rewrite IH.
  - destruct (split_dot rest) as [|h t] eqn:E; [by apply split_dot_nonempty in E|].
    rewrite <- IH. destruct t as [|h' t]; reflexivity.
Qed.

Lemma split_dot_length (s : string) : length (split_dot s) = S (dots s).
Proof.
  induction s as [|c rest IH]; [reflexivity|]. cbn [split_dot dots].
  destruct (decide (c = "."%char)) as [->|Hc]; cbn.
  - by rewrite IH.
  - destruct (split_dot rest) as [|h t] eqn:E; [by apply split_dot_nonempty in E|].
    cbn in *. lia.
Qed.

Lemma split_dot_pieces (s : string) : Forall (fun p => dots p = 0) (split_dot s).
Proof.
  induction s as [|c rest IH]; cbn [split_dot].
  - by constructor.
  - destruct (decide (c = "."%char)) as [->|Hc].
    + by constructor.
    + assert (Hd : forall h, dots h = 0 -> dots (String c h) = 0).
      { intros h Hh. cbn. by destruct (decide (c = "."%char)). }
      destruct (split_dot rest) as [|h t].
      * constructor; [by apply Hd|constructor].
      * inversion IH; subst. constructor; [by apply Hd|done].
Qed.

Lemma split_dot_no_dot (s : string) : dots s = 0 -> split_dot s = [s].
Proof.
  induction s as [|c rest IH]; [done|]. cbn [split_dot dots].
  destruct (decide (c = "."%char)); [done|]. cbn. intros H.
  by rewrite (IH H).
Qed.

Lemma substring_length (n : nat) (s : string) :
  String.length (substring 0 n s) = Nat.min n (String.length s).
Proof.
  revert n. induction s as [|c rest IH]; intros [|n]; cbn; try done.
  by rewrite IH.
Qed.

Lemma substring_prefix (n : nat) (s : string) :
  exists rest, s = (substring 0 n s ++ rest)%string.
Proof.
  revert n. induction s as [|c s IH]; intros [|n]; cbn; try by eexists.
  destruct (IH n) as [rest Hr]. exists rest.
  change (String c s = String c (substring 0 n s ++ rest)%string).
  by f_equal.
Qed.

Lemma substring_all (n : nat) (s : string) :
  String.length s <= n -> substring 0 n s = s.
Proof.
  revert n. induction s as [|c s IH]; intros [|n] H; cbn in *; try done.
  - lia.
  - f_equal. apply IH. lia.
Qed.
End AnalyzeToolFacts.

(** The relevance [AnalyzeTool.run] gives is between 0 and 1 for every
    content, of any type; for a text it is the length over 1000, capped at
    1, so a longer text never scores lower and exactly the texts of 1000
    characters or more score 1. *)
Theorem relevance_range :
  (forall content : json,
     (0 <= AnalyzeTool.relevance (AnalyzeTool.run content) <= 1)%Q) /\
  (forall c1 c2 : string,
     String.length c1 <= String.length c2 ->
     (AnalyzeTool.relevance (AnalyzeTool.run (JStr c1))
        <= AnalyzeTool.relevance (AnalyzeTool.run (JStr c2)))%Q) /\
  (forall c : string,
     (AnalyzeTool.relevance (AnalyzeTool.run (JStr c)) == 1)%Q
       <-> 1000 <= String.length c).
Proof.
  assert (Hrel : forall c : string,
            (String.length c = 0 /\ AnalyzeTool._calculate_relevance c = 0%Q) \/
            (0 < String.length c /\
             AnalyzeTool._calculate_relevance c
               = if (1000 <=? String.length c)%nat then 1%Q
                 else (Z.of_nat (String.length c) # 1000))).
  { intros c. unfold AnalyzeTool._calculate_relevance.
    destruct (decide (c = "")) as [->|Hc]; [by left|right].
    split; [|reflexivity]. destruct c; [done|cbn; lia]. }
  assert (Hval : forall c : string,
            (0 <= AnalyzeTool._calculate_relevance c <= 1)%Q).
  { intros c. destruct (Hrel c) as [[_ ->]|[_ ->]]; [split; discriminate|].
    destruct (Nat.leb_spec 1000 (String.length c)) as [H|H].
    - split; discriminate.
    - unfold Qle. cbn. split; lia. }
  split; [|split].
  - intros [| | | |c| |]; cbn; try (split; discriminate). apply Hval.
  - intros c1 c2 Hle. cbn.
    destruct (Hrel c1) as [[_ ->]|[Hp1 ->]]; [apply Hval|].
    destruct (Hrel c2) as [[Hz _]|[_ ->]]; [lia|].
    destruct (Nat.leb_spec 1000 (String.length c1)) as [H1|H1];
      destruct (Nat.leb_spec 1000 (String.length c2)) as [H2|H2];
      unfold Qle; cbn; lia.
  - intros c. cbn. destruct (Hrel c) as [[Hz ->]|[_ ->]].
    + rewrite Hz. split; [discriminate|lia].
    + destruct (Nat.leb_spec 1000 (String.length c)) as [H|H].
      * split; [done|reflexivity].
      * unfold Qeq. cbn. split; lia.
Qed.

(** The text [AnalyzeTool.run] keeps of a string content is its first 500
    characters: a prefix of the content, of length min (500, length), the
    content itself when that has 500 characters or fewer. *)
Theorem analysis_text_truncated (c : string) :
  exists t rest : string,
    AnalyzeTool.text_of (AnalyzeTool.run (JStr c)) = JStr t /\
    c = (t ++ rest)%string /\
    String.length t = Nat.min 500 (String.length c) /\
    (String.length c <= 500 -> t = c).
Proof.
  destruct (substring_prefix 500 c) as [rest Hr].
  exists (substring 0 500 c), rest. split; [reflexivity|]. split; [exact Hr|].
  pose proof (substring_length 500 c) as Hl. split; [exact Hl|].
  intros Hc. by apply substring_all.
Qed.

(** [content.split('.')] loses nothing: there is one piece more than there
    are full stops, no piece holds a full stop, and joining the pieces with
    full stops gives the content back.  The summary of a content without
    full stop is the content followed by one. *)
Theorem sentences_split (c : string) :
  String.concat "." (AnalyzeTool.split_dot c) = c /\
  length (AnalyzeTool.split_dot c) = S (Sentences.dots c) /\
  Forall (fun p => Sentences.dots p = 0) (AnalyzeTool.split_dot c) /\
  (Sentences.dots c = 0 ->
   AnalyzeTool._extract_summary c = (c ++ ".")%string).
Proof.
  split; [apply split_dot_join|]. split; [apply split_dot_length|].
  split; [apply split_dot_pieces|].
  intros H. unfold AnalyzeTool._extract_summary.
  by rewrite (split_dot_no_dot _ H).
Qed.

(** * Properties of the search tool *)

Section LruFacts.
Import SearchTool Fetch.

Lemma lru_find_elem (q : string) (src : ResearchAgent.SourceType)
    (entries : list (string * ResearchAgent.SourceType * nat)) (id : nat) :
  lru_find q src entries = Some id -> (q, src, id) ∈ entries.
Proof.
  induction entries as [|[[q' src'] id'] rest IH]; cbn; [done|].
  destruct (decide (q = q' /\ src = src')) as [[-> ->]|_].
  - intros [= ->]. apply list_elem_of_here.
  - intros H. apply list_elem_of_further. by apply IH.
Qed.

Lemma lru_drop_shorter (q : string) (src : ResearchAgent.SourceType)
    (entries : list (string * ResearchAgent.SourceType * nat)) (id : nat) :
  lru_find q src entries = Some id ->
  S (length (lru_drop q src entries)) <= length entries.
Proof.
  unfold lru_drop.
  induction entries as [|[[q' src'] id'] rest IH]; cbn [lru_find]; [done|].
  destruct (decide (q = q' /\ src = src')) as [Heq|Hne].
  - intros _. rewrite filter_cons_False by (cbn; tauto).
    pose proof (length_filter (fun e : string * ResearchAgent.SourceType * nat =>
                   ¬ (q = e.1.1 /\ src = e.1.2)) rest). cbn [length]. lia.
  - intros H. rewrite filter_cons_True by (cbn; tauto). cbn [length].
    specialize (IH H). lia.
Qed.

Lemma lru_find_head (q : string) (src : ResearchAgent.SourceType) (id : nat)
    (rest : list (string * ResearchAgent.SourceType * nat)) :
  lru_find q src ((q, src, id) :: rest) = Some id.
Proof. cbn. by rewrite decide_True. Qed.

(** What the decorated call returns and leaves. *)
Lemma run_facts (t t1 : tool) (q : string) (src : ResearchAgent.SourceType)
    (id : nat) :
  lru_ok t -> run t q src = (t1, id) ->
  lru_ok t1 /\ id < length (coroutines t1) /\
  lru_find q src (lru t1) = Some id.
Proof.
  intros [Hv Hl]. unfold run.
  destruct (lru_find q src (lru t)) as [id'|] eqn:E; intros [= <- <-]; cbn.
  - pose proof (lru_find_elem _ _ _ _ E) as Hin.
    pose proof (lru_drop_shorter _ _ _ _ E) as Hs.
    rewrite Forall_forall in Hv. pose proof (Hv _ Hin) as Hid. cbn in Hid.
    split; [split|split]; cbn.
    + constructor; [exact Hid|]. unfold lru_drop.
      apply Forall_forall. intros e He. apply Hv.
      by apply list_elem_of_filter in He as [_ He].
    + lia.
    + exact Hid.
    + by rewrite decide_True.
  - split; [split|split]; cbn.
    + rewrite length_app. cbn [length].
      constructor; [cbn; lia|]. apply Forall_take.
      eapply Forall_impl; [exact Hv|]. cbn. intros e He. lia.
    + rewrite length_take. lia.
    + rewrite length_app. cbn. lia.
    + by rewrite decide_True.
Qed.

Lemma await_facts (providers : list provider) (t : tool) (id : nat) :
  id < length (coroutines t) ->
  let t2 := (await providers t id).1 in
  lru t2 = lru t /\ length (coroutines t2) = length (coroutines t) /\
  exists c, coroutines t2 !! id = Some c /\ co_awaited c = true.
Proof.
  intros Hid. unfold await.
  destruct (coroutines t !! id) as [c|] eqn:E.
  - destruct (co_awaited c) eqn:Ea; cbn.
    + split; [done|]. split; [done|]. by exists c.
    + split; [done|]. split; [by rewrite length_insert|].
      eexists. split; [by apply list_lookup_insert_eq|reflexivity].
  - apply lookup_ge_None in E. lia.
Qed.

Lemma fetch_ok (providers : list provider) (t : tool) (q : string)
    (src : ResearchAgent.SourceType) :
  lru_ok t -> lru_ok (fetch providers t q src).1.
Proof.
  intros Hok. unfold fetch. destruct (run t q src) as [t1 id] eqn:E.
  destruct (run_facts _ _ _ _ _ Hok E) as ([Hv Hl] & Hid & _).
  destruct (await_facts providers t1 id Hid) as (Hlru & Hlen & _).
  split; [|by rewrite Hlru]. rewrite Hlru, Hlen. exact Hv.
Qed.

Lemma fetch_all_ok (providers : list provider)
    (calls : list (string * ResearchAgent.SourceType)) (t : tool) :
  lru_ok t -> lru_ok (fetch_all providers calls t).
Proof.
  revert t. induction calls as [|c calls IH]; intros t Hok; [done|].
  cbn. apply IH. by apply fetch_ok.
Qed.

Lemma fresh_ok : lru_ok fresh.
Proof. split; cbn; [constructor|lia]. Qed.

Lemma refetch_raises (providers : list provider) (t : tool) (q : string)
    (src : ResearchAgent.SourceType) :
  lru_ok t ->
  (fetch providers (fetch providers t q src).1 q src).2
    = (Raise (RuntimeError "cannot reuse already awaited coroutine"), O).
Proof.
  intros Hok. unfold fetch at 2. destruct (run t q src) as [t1 id] eqn:E.
  destruct (run_facts _ _ _ _ _ Hok E) as (Hok1 & Hid & Hfind).
  destruct (await_facts providers t1 id Hid) as (Hlru & Hlen & c & Hc & Ha).
  set (t2 := (await providers t1 id).1) in *.
  unfold fetch, run. rewrite Hlru, Hfind. unfold await. cbn.
  by rewrite Hc, Ha.
Qed.
End LruFacts.

(** After any run of awaited calls on a new tool, the cache of
    [lru_cache] holds at most 100 coroutine objects, each of them one that
    was built. *)
Theorem lru_cache_bounded (providers : list SearchTool.provider)
    (calls : list (string * ResearchAgent.SourceType)) :
  let t := Fetch.fetch_all providers calls SearchTool.fresh in
  length (SearchTool.lru t) <= 100 /\
  Forall (fun e => e.2 < length (SearchTool.coroutines t)) (SearchTool.lru t).
Proof.
  cbv zeta. destruct (fetch_all_ok providers calls _ fresh_ok) as [Hv Hl].
  by split.
Qed.

(** After any run of awaited calls on a new tool, a call awaited twice in
    a row with the same query and source fails the second time: the
    decorator hands out the coroutine object of the first, which has run,
    and no provider is called. *)
Theorem repeated_call_reuses_coroutine (providers : list SearchTool.provider)
    (calls : list (string * ResearchAgent.SourceType)) (q : string)
    (src : ResearchAgent.SourceType) :
  let t := Fetch.fetch_all providers calls SearchTool.fresh in
  (SearchTool.fetch providers (SearchTool.fetch providers t q src).1 q src).2
    = (Raise (RuntimeError "cannot reuse already awaited coroutine"), O).
Proof.
  cbv zeta. apply refetch_raises. apply fetch_all_ok, fresh_ok.
Qed.

(** * Properties of the orchestrator *)

Section StageFacts.
Import ResearchAgent.

Lemma mapM_res_Forall2_inv {A B : Type} (f : A -> res B) (l : list A)
    (l' : list B) :
  Forall2 (fun a b => f a = Ok b) l l' -> mapM f l = Ok l'.
Proof.
  induction 1 as [|a b l l' Hab _ IH]; cbn; [done|].
  by rewrite Hab, IH.
Qed.

Lemma mapM_res_first_error {A B : Type} (f : A -> res B) (pre post : list A)
    (x : A) (e : exc) :
  Forall (fun a => exists b, f a = Ok b) pre -> f x = Raise e ->
  mapM f (pre ++ x :: post) = Raise e.
Proof.
  induction 1 as [|a pre [b Hb] _ IH]; intros Hx; cbn.
  - by rewrite Hx.
  - rewrite Hb. cbn. by rewrite (IH Hx).
Qed.
End StageFacts.

(** The search stage returns exactly when the call for every source
    returns, and then its items are the lists of the sources, one after the
    other in the order of [query.sources]. *)
Theorem search_stage_concatenates
    (search_run : string -> ResearchAgent.SourceType -> res (list json))
    (q : ResearchAgent.ResearchQuery) (items : list json) :
  ResearchAgent.search_stage search_run q = Ok items <->
  exists per_source : list (list json),
    Forall2 (fun src l => search_run (ResearchAgent.query q) src = Ok l)
            (ResearchAgent.sources q) per_source /\
    items = concat per_source.
Proof.
  unfold ResearchAgent.search_stage. split.
  - destruct (mapM _ _) as [ls|e] eqn:E; cbn; [|discriminate].
    intros [= <-]. exists ls. split; [|done]. by apply mapM_res_Forall2.
  - intros (ls & Hall & ->). by rewrite (mapM_res_Forall2_inv _ _ _ Hall).
Qed.

(** An item without a content key fails the whole analyze stage with the
    KeyError of that item, whatever the other items are: the first such item
    decides the exception. *)
Theorem item_without_content_fails_stage (pre post : list json) (item : json)
    (e : exc) (max : Z) :
  Forall (fun r => exists c, subscript r "content" = Ok c) pre ->
  subscript item "content" = Raise e ->
  ResearchAgent.analyze_stage (pre ++ item :: post) max = Raise e.
Proof.
  intros Hpre Hitem. unfold ResearchAgent.analyze_stage,
    ResearchAgent.analyzed_results.
  by rewrite (mapM_res_first_error _ _ _ _ _ Hpre Hitem).
Qed.

Lemma item_without_content_fails_stage_witness :
  ResearchAgent.analyze_stage
    ([Ranking.item "web" "aa"] ++ JObj [("title", JStr "t")] :: [Ranking.item "web" "d"]) 5
    = Raise (KeyError "content").
Proof.
  apply (item_without_content_fails_stage [Ranking.item "web" "aa"]
           [Ranking.item "web" "d"] (JObj [("title", JStr "t")])
           (KeyError "content") 5).
  - constructor; [|constructor]. eexists. vm_compute. reflexivity.
  - vm_compute. reflexivity.
Defined.

(** The loop with a ResearchPolicy bound to [self.policy] (the binding of
    [__init__] is another, with which the function raises before its first
    turn): when the search returns items that all carry content, source and
    metadata, the run ends after the search and the analyze turn with one
    entry per ranked item: min (number of items, max_results) entries, in
    descending relevance_score, each of them one of the analysed items. *)
Theorem research_returns_ranked
    (search_run : string -> ResearchAgent.SourceType -> res (list json))
    (q : ResearchAgent.ResearchQuery) (extra : nat) (items : list json)
    (analyzed : list ResearchAgent.scored) :
  (1 <= ResearchAgent.max_results q <= 50)%Z ->
  ResearchAgent.search_stage search_run q = Ok items ->
  ResearchAgent.analyzed_results items = Ok analyzed ->
  exists final : list ResearchAgent.scored,
    ResearchAgent._execute_research search_run ResearchAgent.PolicyObject
        (3 + extra) q
      = Some (Ok (ResearchAgent.scored_to_json <$> final),
              [ResearchAgent.Search; ResearchAgent.Analyze]) /\
    length final
      = Nat.min (length items) (Z.to_nat (ResearchAgent.max_results q)) /\
    StronglySorted (Ranking.desc ResearchAgent.relevance_score) final /\
    final ⊆+ analyzed.
Proof.
  intros Hmax Hs Ha.
  exists (take (Z.to_nat (ResearchAgent.max_results q))
            (ResearchAgent.py_sorted_desc ResearchAgent.relevance_score analyzed)).
  split; [|split; [|split]].
  - rewrite execute_research_turns, Hs.
    unfold ResearchAgent.analyze_stage. rewrite Ha. cbn.
    unfold ResearchAgent.slice_to.
    destruct (Z.leb_spec 0 (ResearchAgent.max_results q)); [done|lia].
  - rewrite length_take, (Permutation_length (py_sorted_desc_perm _ analyzed)).
    rewrite <- (Forall2_length _ _ _ (analyzed_results_scores _ _ Ha)). lia.
  - apply (StronglySorted_app_1_l _ _
             (drop (Z.to_nat (ResearchAgent.max_results q))
                (ResearchAgent.py_sorted_desc ResearchAgent.relevance_score
                   analyzed))).
    rewrite take_drop. apply py_sorted_desc_sorted.
  - etrans; [apply submseteq_take|].
    apply Permutation_submseteq, py_sorted_desc_perm.
Qed.

Lemma research_returns_ranked_witness :
  exists final : list ResearchAgent.scored,
    ResearchAgent._execute_research Runs.sample_search
        ResearchAgent.PolicyObject 3 SampleQuery.quantum
      = Some (Ok (ResearchAgent.scored_to_json <$> final),
              [ResearchAgent.Search; ResearchAgent.Analyze]) /\
    length final = 2.
Proof.
  destruct (research_returns_ranked Runs.sample_search SampleQuery.quantum 0
              Ranking.fetched Ranking.fetched_analyzed)
    as (final & Hrun & Hlen & _).
  - cbn. lia.
  - vm_compute. reflexivity.
  - vm_compute. reflexivity.
  - exists final. split; [exact Hrun|exact Hlen].
Defined.

Section MergeFacts.
Import ResearchAgent.

Lemma assoc_dict_set_eq (k : string) (v : json) (fields : list (string * json)) :
  assoc k (dict_set k v fields) = Some v.
Proof.
  induction fields as [|[k' v'] rest IH]; cbn.
  - by rewrite decide_True.
  - destruct (decide (k = k')) as [->|Hne]; cbn.
    + by rewrite decide_True.
    + by rewrite decide_False.
Qed.

Lemma assoc_dict_set_ne (k k' : string) (v : json)
    (fields : list (string * json)) :
  k' <> k -> assoc k' (dict_set k v fields) = assoc k' fields.
Proof.
  intros Hne. induction fields as [|[k0 v0] rest IH]; cbn.
  - by rewrite decide_False.
  - destruct (decide (k = k0)) as [->|Hk]; cbn.
    + by rewrite !decide_False.
    + destruct (decide (k' = k0)); [done|exact IH].
Qed.
End MergeFacts.

(** The metadata of an analysed entry is the metadata of its item with the
    analysis under the key analysis: that key reads the analysis, every
    other key reads what the item had (or is missing as it was), and the
    source is the source of the item. *)
Theorem analysis_merged_into_metadata (result : json)
    (a : AnalyzeTool.analysis) (x : ResearchAgent.scored) :
  ResearchAgent.analyzed_entry result a = Ok x ->
  subscript (ResearchAgent.metadata x) "analysis" = Ok (AnalyzeTool.to_json a) /\
  (forall k : string, k <> "analysis" ->
     Ok (ResearchAgent.metadata x) ≫= (fun md => subscript md k)
       = subscript result "metadata" ≫= (fun md => subscript md k)) /\
  subscript result "source" = Ok (ResearchAgent.source x).
Proof.
  unfold ResearchAgent.analyzed_entry.
  destruct (subscript result "source") as [src|?]; cbn; [|discriminate].
  destruct (subscript result "metadata") as [md|?]; cbn; [|discriminate].
  destruct md as [| | | | | |fields]; cbn; try discriminate.
  intros [= <-]. cbn. split; [|split; [|done]].
  - by rewrite assoc_dict_set_eq.
  - intros k Hk. by rewrite assoc_dict_set_ne.
Qed.

Lemma analysis_merged_into_metadata_witness :
  exists x,
    ResearchAgent.analyzed_entry (Ranking.item "web" "aa")
      (AnalyzeTool.run (JStr "aa")) = Ok x /\
    subscript (ResearchAgent.metadata x) "analysis"
      = Ok (AnalyzeTool.to_json (AnalyzeTool.run (JStr "aa"))).
Proof.
  eexists. split; [vm_compute; reflexivity|].
  eapply (analysis_merged_into_metadata (Ranking.item "web" "aa")
            (AnalyzeTool.run (JStr "aa"))).
  vm_compute. reflexivity.
Defined.

(** What the body of [run] does is decided by the value of the lookup
    alone.  A cached text is decoded and returned as it is, with no provider
    call, the serialised empty list included.  On a falsy value every
    provider is called once, and the result is the first five of the items
    they gave, in the order of the providers: never more than five. *)
Theorem lookup_decides_fetch (providers : list SearchTool.provider)
    (query : string) :
  (forall j : json,
     SearchTool.run_body providers query (SearchTool.PyText (Dumps j))
       = (Ok j, O)) /\
  (forall cached_result : SearchTool.pyval,
     SearchTool.truthy cached_result = false ->
     exists found : list json,
       SearchTool.run_body providers query cached_result
         = (Ok (JArr found), length providers) /\
       found = take 5 (concat (Fetch.contribution query <$> providers)) /\
       length found <= 5).
Proof.
  split; [reflexivity|]. intros c Hc.
  exists (take 5 (concat (Fetch.contribution query <$> providers))).
  split; [by apply run_body_miss|]. split; [done|].
  rewrite length_take. lia.
Qed.

(** * Properties of ResearchTask.update_status *)

Section UpdateStatusFacts.
Import ResearchTask.

Lemma update_status_keeps (self : t) (c : call) :
  (is_Some (error self) -> is_Some (error (update_status self c))) /\
  (is_Some (completed_at self) -> is_Some (completed_at (update_status self c))) /\
  (progress self = 1%Q -> progress (update_status self c) = 1%Q).
Proof.
  unfold update_status. cbn. split; [|split].
  - intros He. destruct (given (new_error c)) eqn:G; [|done].
    destruct (new_error c); [eauto|discriminate].
  - intros Hc. destruct (new_status c); eauto.
  - intros Hp. destruct (new_status c); done.
Qed.
End UpdateStatusFacts.

(** [update_status] never takes back what an earlier call recorded: over
    any run of calls, a task that has an error keeps an error, a task that
    has a completion time keeps one and a progress of 1 stays 1, also when
    the status moves on (a failed task later marked completed still carries
    its error; a completed task set back to pending still shows progress
    1).  An error argument that is [None] or empty leaves the error as it
    was. *)
Theorem update_status_never_clears (self : ResearchTask.t)
    (calls : list ResearchTask.call) :
  let final := foldl ResearchTask.update_status self calls in
  (is_Some (ResearchTask.error self) -> is_Some (ResearchTask.error final)) /\
  (is_Some (ResearchTask.completed_at self) ->
   is_Some (ResearchTask.completed_at final)) /\
  (ResearchTask.progress self = 1%Q -> ResearchTask.progress final = 1%Q) /\
  (forall c : ResearchTask.call,
     ResearchTask.new_error c = None \/ ResearchTask.new_error c = Some "" ->
     ResearchTask.error (ResearchTask.update_status self c)
       = ResearchTask.error self).
Proof.
  cbv zeta. split; [|split; [|split]].
  - revert self. induction calls as [|c calls IH]; intros self H; [done|].
    cbn. apply IH. by apply update_status_keeps.
  - revert self. induction calls as [|c calls IH]; intros self H; [done|].
    cbn. apply IH. by apply update_status_keeps.
  - revert self. induction calls as [|c calls IH]; intros self H; [done|].
    cbn. apply IH. by apply update_status_keeps.
  - intros c [Hc|Hc]; unfold ResearchTask.update_status; cbn; by rewrite Hc.
Qed.

(** * Properties of the in-memory StateManager *)

(** The store of tracing.py: a state that was set is the one got, until it
    is set again or deleted; setting or deleting one id leaves the others;
    deleting an id that is not there changes nothing. *)
Theorem memory_store_laws {TaskState : Type} (id : string) (st : TaskState)
    (states : gmap string TaskState) :
  MemoryStateManager.get_state id (MemoryStateManager.set_state id st states)
    = Some st /\
  MemoryStateManager.get_state id (MemoryStateManager.delete_state id states)
    = None /\
  (forall id' : string, id' <> id ->
     MemoryStateManager.get_state id'
       (MemoryStateManager.set_state id st states)
       = MemoryStateManager.get_state id' states /\
     MemoryStateManager.get_state id'
       (MemoryStateManager.delete_state id states)
       = MemoryStateManager.get_state id' states) /\
  (MemoryStateManager.get_state id states = None ->
   MemoryStateManager.delete_state id states = states) /\
  MemoryStateManager.delete_state id
    (MemoryStateManager.set_state id st (MemoryStateManager.delete_state id states))
    = MemoryStateManager.delete_state id states.
Proof.
  unfold MemoryStateManager.get_state, MemoryStateManager.set_state,
    MemoryStateManager.delete_state.
  split; [apply lookup_insert_eq|]. split; [|split; [|split]].
  - destruct (states !! id) eqn:E; [apply lookup_delete_eq|exact E].
  - intros id' Hne. split; [by rewrite lookup_insert_ne|].
    destruct (states !! id); [by rewrite lookup_delete_ne|done].
  - by intros ->.
  - rewrite lookup_insert_eq.
    destruct (states !! id) eqn:E.
    + by rewrite delete_insert_eq, delete_delete_eq.
    + rewrite delete_insert_eq. by apply delete_id.
Qed.

(** * Runs of the consumer loop and of the semaphore *)

Section SoloFacts.
Import Semaphore Runs.

Lemma calls_in_turn (n : nat) (i k : nat) (s : sys) (rest : list event) :
  runs s !! i = Some (Holding k) ->
  exec n s (concat (replicate k [Call i; Reply i]) ++ rest)
    = exec n {| permits := permits s; runs := <[i := Holding 0]> (runs s) |} rest.
Proof.
  revert s. induction k as [|k IH]; intros s Hi.
  - cbn [replicate concat app]. f_equal. destruct s as [p l]. cbn in *.
    f_equal. symmetry. by apply list_insert_id.
  - cbn [replicate concat app exec step]. rewrite Hi.
    cbn [exec step permits runs].
    assert (Hlt : i < length (runs s)) by (by eapply lookup_lt_Some).
    rewrite list_lookup_insert_eq by done.
    rewrite list_insert_insert_eq.
    rewrite IH; cbn [permits runs].
    + by rewrite list_insert_insert_eq.
    + by apply list_lookup_insert_eq.
Qed.
End SoloFacts.

(** The schedule in which an execution enters the block, starts each
    provider call after the reply to the one before and leaves the block
    can be run whenever a permit is free; it ends with the permit given
    back and the other executions where they were. *)
Theorem solo_run_returns_permit (n i p : nat) (s : Semaphore.sys) :
  Semaphore.runs s !! i = Some Semaphore.Queued ->
  Semaphore.permits s = S p ->
  Semaphore.exec n s (Runs.solo i n)
    = Some {| Semaphore.permits := S p;
              Semaphore.runs := <[i := Semaphore.Returned]> (Semaphore.runs s) |}.
Proof.
  intros Hi Hp. unfold Runs.solo. cbn [Semaphore.exec Semaphore.step].
  rewrite Hi, Hp.
  assert (Hlt : i < length (Semaphore.runs s)) by (by eapply lookup_lt_Some).
  rewrite calls_in_turn by (by apply list_lookup_insert_eq).
  cbn [Semaphore.exec Semaphore.step Semaphore.permits Semaphore.runs].
  rewrite list_insert_insert_eq.
  rewrite list_lookup_insert_eq by done.
  by rewrite list_insert_insert_eq.
Qed.

Lemma solo_run_returns_permit_witness :
  Semaphore.exec 3 {| Semaphore.permits := 1;
                      Semaphore.runs := [Semaphore.Returned; Semaphore.Queued] |}
    (Runs.solo 1 3)
    = Some {| Semaphore.permits := 1;
              Semaphore.runs := [Semaphore.Returned; Semaphore.Returned] |}.
Proof.
  apply (solo_run_returns_permit 3 1 0
           {| Semaphore.permits := 1;
              Semaphore.runs := [Semaphore.Returned; Semaphore.Queued] |});
    reflexivity.
Defined.

Section DrainFacts.
Import Redis MessageQueue Observe Runs.



End DrainFacts.



(** A queue of descriptors written by [enqueue_task]: however many
    iterations the consumer loop makes and whatever the handlers do, it
    leaves alone every entry that belongs to none of the queued tasks.  The
    entry of a task that has reached completed or failed stays as it is
    while other tasks are served. *)
Theorem other_entries_untouched (handlers : gmap string MessageQueue.handler)
    (q : list MessageQueue.request) (nows : list string)
    (s s' : Redis.store) (k : string) :
  Observe.pending s = Dumps <$> (MessageQueue.task_data <$> q) ->
  Runs.iterate handlers nows s = Some s' ->
  k <> MessageQueue.queue_key ->
  Forall (fun r => k <> MessageQueue.task_key (MessageQueue.req_uuid r)) q ->
  s' !! k = s !! k.
Proof.
  revert q s. induction nows as [|now nows IH]; intros q s Hp Hit Hk Hall.
  - cbn in Hit. by injection Hit as <-.
  - cbn in Hit.
    destruct (MessageQueue.process_one handlers now s) as [s1|] eqn:E;
      [|discriminate].
    pose proof (iteration_pops_one_lemma _ _ _ _ E) as Hp1.
    destruct q as [|r q].
    + cbn in Hp. rewrite (idle_lemma handlers now s Hp) in E.
      injection E as <-. by apply (IH [] s).
    + cbn in Hp. rewrite Hp in Hp1. cbn in Hp1.
      apply Forall_cons in Hall as [Hr Hall].
      rewrite (IH q s1 Hp1 Hit Hk Hall).
      apply pending_cons in Hp. by eapply process_one_frame.
Qed.

Lemma other_entries_untouched_witness :
  Sample.two_served !! MessageQueue.task_key "id-3"
    = Sample.two_enqueued !! MessageQueue.task_key "id-3".
Proof.
  apply (other_entries_untouched (Sample.returning (JArr []))
           [Sample.r2; Sample.r1] ["2024-05-01T10:00:09"]
           Sample.two_enqueued Sample.two_served).
  - vm_compute. reflexivity.
  - vm_compute. reflexivity.
  - discriminate.
  - repeat constructor; discriminate.
Defined.

(** A JSON document at the head of the queue that has no task_id or no
    task_type to read (a key is missing, or the document is no object) is
    dropped: the iteration takes it off the queue, writes nothing and the
    loop goes on. *)
Theorem keyless_descriptor_dropped
    (handlers : gmap string MessageQueue.handler) (now : string)
    (task : json) (rest : list text) (s : Redis.store) :
  s !! MessageQueue.queue_key = Some (Redis.RList (Dumps task :: rest)) ->
  (exists e, subscript task "task_id" = Raise e) \/
  (exists e, subscript task "task_type" = Raise e) ->
  exists s',
    MessageQueue.process_one handlers now s = Some s' /\
    Observe.pending s' = rest /\
    forall k : string, k <> MessageQueue.queue_key -> s' !! k = s !! k.
Proof.
  intros Hq Hbad. destruct (blpop_head _ _ _ Hq) as (s1 & Hpop & Hrest & Hsame).
  exists s1. split; [|by split].
  unfold MessageQueue.process_one. rewrite Hpop. unfold MessageQueue.dispatch.
  cbn [json_loads mbind res_bind].
  destruct Hbad as [[e He]|[e He]].
  - by rewrite He.
  - rewrite He. by destruct (subscript task "task_id").
Qed.

Lemma keyless_descriptor_dropped_witness :
  exists s',
    MessageQueue.process_one (Sample.returning (JArr [])) "2024-05-01T10:00:09"
      {[MessageQueue.queue_key :=
          Redis.RList [Dumps (JObj [("task_type", JStr "research")])]]}
      = Some s' /\
    Observe.pending s' = [].
Proof.
  destruct (keyless_descriptor_dropped (Sample.returning (JArr []))
              "2024-05-01T10:00:09"
              (JObj [("task_type", JStr "research")]) []
              {[MessageQueue.queue_key :=
                  Redis.RList [Dumps (JObj [("task_type", JStr "research")])]]})
    as (s' & Hp & Hq & _).
  - reflexivity.
  - left. eexists. vm_compute. reflexivity.
  - exists s'. by split.
Defined.

Section CallBudget.
Import Semaphore Runs.

Lemma step_calls_left (n i : nat) (s s' : sys) (ev : event) :
  step n s ev = Some s' ->
  calls_of i [ev] + calls_left n (runs s' !! i) <= calls_left n (runs s !! i).
Proof.
  destruct s as [p l]. cbn [runs permits].
  assert (Hins : forall j x,
            j <> i -> (<[j := x]> l) !! i = l !! i)
    by (intros j x Hne; by apply list_lookup_insert_ne).
  destruct ev as [|j|j|j|j|j|j]; cbn [step calls_of runs permits].
  - intros [= <-]. cbn [runs].
    destruct (l !! i) as [ph|] eqn:E.
    + by rewrite (lookup_app_l_Some _ _ _ _ E).
    + destruct (decide (i = length l)) as [->|Hne].
      * rewrite lookup_app_r by lia. replace (length l - length l) with 0 by lia.
        cbn. lia.
      * apply lookup_ge_None in E.
        rewrite (proj2 (lookup_ge_None (l ++ [Queued]) i));
          [cbn; lia|rewrite length_app; cbn; lia].
  - destruct (l !! j) as [[| | |]|] eqn:E; intros [= <-]; cbn [runs].
    destruct (decide (j = i)) as [->|Hne]; [|by rewrite Hins].
    rewrite E, list_lookup_insert_eq by (by eapply lookup_lt_Some). cbn. lia.
  - destruct (l !! j) as [[| | |]|] eqn:E; try discriminate.
    destruct p as [|p']; intros [= <-]; cbn [runs].
    destruct (decide (j = i)) as [->|Hne]; [|by rewrite Hins].
    rewrite E, list_lookup_insert_eq by (by eapply lookup_lt_Some). cbn. lia.
  - destruct (l !! j) as [[|[|k]|k|]|] eqn:E; intros [= <-]; cbn [runs].
    destruct (decide (i = j)) as [->|Hne]; [|rewrite Hins by done; cbn; lia].
    rewrite E, list_lookup_insert_eq by (by eapply lookup_lt_Some). cbn. lia.
  - destruct (l !! j) as [[|k|k|]|] eqn:E; intros [= <-]; cbn [runs].
    destruct (decide (j = i)) as [->|Hne]; [|by rewrite Hins].
    rewrite E, list_lookup_insert_eq by (by eapply lookup_lt_Some). cbn. lia.
  - destruct (l !! j) as [[|[|k]|k|]|] eqn:E; intros [= <-]; cbn [runs].
    destruct (decide (j = i)) as [->|Hne]; [|by rewrite Hins].
    rewrite E, list_lookup_insert_eq by (by eapply lookup_lt_Some). cbn. lia.
  - destruct (l !! j) as [[|k|k|]|] eqn:E; intros [= <-]; cbn [runs];
      (destruct (decide (j = i)) as [->|Hne]; [|by rewrite Hins]);
      rewrite E, list_lookup_insert_eq by (by eapply lookup_lt_Some); cbn; lia.
Qed.

Lemma calls_of_cons (i : nat) (ev : event) (evs : list event) :
  calls_of i (ev :: evs) = calls_of i [ev] + calls_of i evs.
Proof. destruct ev; cbn; lia. Qed.

Lemma exec_calls_left (n i : nat) (evs : list event) (s s' : sys) :
  exec n s evs = Some s' ->
  calls_of i evs <= calls_left n (runs s !! i).
Proof.
  revert s. induction evs as [|ev evs IH]; intros s; [cbn; lia|].
  cbn [exec]. destruct (step n s ev) as [s1|] eqn:E; [|discriminate].
  intros H. specialize (IH _ H).
  pose proof (step_calls_left n i _ _ _ E). rewrite calls_of_cons. lia.
Qed.
End CallBudget.

(** However the executions of [run] on a SearchTool interleave, one
    execution starts at most as many [provider.search] calls as there are
    registered providers. *)
Theorem calls_per_run_bounded (MAX_CONCURRENT_REQUESTS n_providers : nat)
    (evs : list Semaphore.event) (s : Semaphore.sys) (i : nat) :
  Semaphore.exec n_providers (Semaphore.init MAX_CONCURRENT_REQUESTS) evs
    = Some s ->
  Runs.calls_of i evs <= n_providers.
Proof.
  intros H. by apply (exec_calls_left n_providers i) in H.
Qed.

Lemma calls_per_run_bounded_witness :
  Runs.calls_of 0 Semaphore.burst <= 1.
Proof.
  apply (calls_per_run_bounded 2 1 Semaphore.burst
           {| Semaphore.permits := 0;
              Semaphore.runs := [Semaphore.InCall 0; Semaphore.InCall 0;
                                 Semaphore.Queued] |} 0).
  reflexivity.
Defined.
